(** * caddy-certmagic-azure: the Azure Blob storage module of certmagic

    A shallow embedding of [azureBlobStorage.go] (package
    [certmagic_azure]) together with the few pieces of the Go standard
    library ([strings], [path]) and of the Azure SDK ([azblob]) that the
    storage operations call, followed by the properties of the storage
    contract.

    Conventions.
    - A Go [string] is a sequence of bytes: Rocq's [string].
    - A Go result [(T, error)] is the pair [(T * option error)]; [nil] is
      [None].  Both components are kept, because the Go code returns both.
    - The remote blob service is an explicit [World]; every function that
      talks to it is a state transformer [Remote A].
    - [context.Context] and the zap logger do not influence any returned
      value and are left out; a cancelled context shows up as a failed SDK
      call. *)

From Stdlib Require Import ZArith Ascii String List Bool Lia.
From stdpp Require Import base strings gmap list sorting.

(* ===================================================================== *)
(** ** Package [strings] of the Go standard library *)
(* ===================================================================== *)

Module gostrings.

(** [func HasPrefix(s, prefix string) bool]:
    [len(s) >= len(prefix) && s[:len(prefix)] == prefix]. *)
Definition HasPrefix (s prefix : string) : bool :=
  (String.length prefix <=? String.length s)%nat
  && String.eqb (String.substring 0 (String.length prefix) s) prefix.

(** [func HasSuffix(s, suffix string) bool]:
    [len(s) >= len(suffix) && s[len(s)-len(suffix):] == suffix]. *)
Definition HasSuffix (s suffix : string) : bool :=
  (String.length suffix <=? String.length s)%nat
  && String.eqb
       (String.substring (String.length s - String.length suffix)
                         (String.length suffix) s)
       suffix.

(** [func CutPrefix(s, prefix string) (after string, found bool)]. *)
Definition CutPrefix (s prefix : string) : string * bool :=
  if negb (HasPrefix s prefix) then (s, false)
  else (String.substring (String.length prefix)
                         (String.length s - String.length prefix) s, true).

End gostrings.

(* ===================================================================== *)
(** ** Package [path] of the Go standard library *)
(* ===================================================================== *)

Module gopath.

(** The output buffer of [Clean] (Go's [lazybuf]) is kept as a stack: the
    byte written last comes first, [out.w] is its length and
    [out.string()] is its reversal. *)
Definition lazybuf := string.

Definition is_slash (c : ascii) : bool := Ascii.eqb c "/"%char.
Definition is_dot (c : ascii) : bool := Ascii.eqb c "."%char.

(** [r == n || path[r] == '/'] for the unread part of the path. *)
Definition at_end_or_slash (rest : string) : bool :=
  match rest with
  | EmptyString => true
  | String c _ => is_slash c
  end.

(** The [..] element when [out.w > dotdot]:
    [out.w--; for out.w > dotdot && out.index(out.w) != '/' { out.w-- }].
    [removed] is [out.index(out.w)], the byte dropped last. *)
Fixpoint backtrack (removed : ascii) (out : lazybuf) (dotdot : nat) : lazybuf :=
  match out with
  | EmptyString => EmptyString
  | String c out' =>
      if (dotdot <? String.length out)%nat && negb (is_slash removed)
      then backtrack c out' dotdot
      else out
  end.

(** [for ; r < n && path[r] != '/'; r++ { out.append(path[r]) }]:
    returns the unread rest and the buffer. *)
Fixpoint copy_element (rest : string) (out : lazybuf) : string * lazybuf :=
  match rest with
  | EmptyString => (rest, out)
  | String c rest' =>
      if is_slash c then (rest, out) else copy_element rest' (String c out)
  end.

(** The main loop [for r < n { switch ... }] of [Clean].  [rest] is
    [path[r:]]; every iteration reads at least one byte, so [len(path)]
    iterations are enough ([fuel]). *)
Fixpoint clean_loop (fuel : nat) (rooted : bool) (rest : string)
         (out : lazybuf) (dotdot : nat) : lazybuf :=
  match fuel with
  | O => out
  | S fuel =>
      match rest with
      | EmptyString => out
      | String c rest1 =>
          if is_slash c then
            (* empty path element *)
            clean_loop fuel rooted rest1 out dotdot
          else if is_dot c && at_end_or_slash rest1 then
            (* . element *)
            clean_loop fuel rooted rest1 out dotdot
          else if is_dot c
                  && match rest1 with
                     | String c1 rest2 => is_dot c1 && at_end_or_slash rest2
                     | EmptyString => false
                     end then
            (* .. element: remove to last / *)
            let rest2 := match rest1 with
                         | String _ rest2 => rest2
                         | EmptyString => EmptyString
                         end in
            if (dotdot <? String.length out)%nat then
              (* can backtrack *)
              match out with
              | String last out' =>
                  clean_loop fuel rooted rest2 (backtrack last out' dotdot) dotdot
              | EmptyString => clean_loop fuel rooted rest2 out dotdot
              end
            else if negb rooted then
              (* cannot backtrack, but not rooted, so append .. element *)
              let out1 := if (0 <? String.length out)%nat
                          then String "/"%char out else out in
              let out2 := String "."%char (String "."%char out1) in
              clean_loop fuel rooted rest2 out2 (String.length out2)
            else
              clean_loop fuel rooted rest2 out dotdot
          else
            (* real path element: add slash if needed, copy element *)
            let out1 :=
              if (rooted && negb (String.length out =? 1)%nat)
                 || (negb rooted && negb (String.length out =? 0)%nat)
              then String "/"%char out else out in
            let '(rest', out2) := copy_element rest out1 in
            clean_loop fuel rooted rest' out2 dotdot
      end
  end.

(** [func Clean(path string) string]. *)
Definition Clean (path : string) : string :=
  match path with
  | EmptyString => "."
  | String c rest1 =>
      let rooted := is_slash c in
      let n := String.length path in
      let out :=
        if rooted then clean_loop n rooted rest1 (String "/"%char EmptyString) 1
        else clean_loop n rooted path EmptyString 0 in
      (* Turn empty string into "." *)
      if (String.length out =? 0)%nat then "." else String.rev out
  end.

(** [func Join(elem ...string) string]: the elements from the first
    non-empty one on, separated by slashes, cleaned; [""] when all are
    empty. *)
Fixpoint join_buf (buf : string) (elem : list string) : string :=
  match elem with
  | [] => buf
  | e :: elem' =>
      if (0 <? String.length buf)%nat || negb (String.eqb e "")
      then join_buf ((if (0 <? String.length buf)%nat
                      then buf +:+ "/" else buf) +:+ e) elem'
      else join_buf buf elem'
  end.

Definition Join (elem : list string) : string :=
  let size := foldr (fun e n => (String.length e + n)%nat) 0%nat elem in
  if (size =? 0)%nat then "" else Clean (join_buf "" elem).

End gopath.

(* ===================================================================== *)
(** ** Errors and the remote world *)
(* ===================================================================== *)

(** Go [error] values that reach the storage module: the sentinel
    [fs.ErrNotExist] and whatever the Azure SDK returns (an
    [*azcore.ResponseError] with its error code, a credential or a
    transport error). *)
Inductive error : Type :=
  | ErrNotExist
  | ResponseError (code : string).

(** What an SDK call gives back: the response, or the error. *)
Inductive result (A : Type) : Type :=
  | Ok (a : A)
  | Err (e : error).
Arguments Ok {A} a.
Arguments Err {A} e.

(** [time.Time], counted from the zero time [time.Time{}]. *)
Definition Time := Z.

Module azblob.

(** A stored block blob: the payload and the service-kept timestamp. *)
Record Blob : Type := MkBlob {
  Body : list Byte.byte;
  BlobLastModified : Time
}.

(** The storage account as the clients see it.
    - [blobs]: the blobs, by container name and blob name;
    - [now]: the service clock, stamped on uploads;
    - [faults]: the fate of the coming SDK calls, one entry per call:
      [None] lets the call through, [Some code] makes it fail with that
      error (bad credential, refused request, broken connection,
      cancelled context).  Past the end of the list calls go through;
    - [arrived]: how many bytes of a response body come in before the
      stream breaks, when the script makes the read of a body fail. *)
Record World : Type := MkWorld {
  blobs : gmap (string * string) Blob;
  now : Time;
  faults : list (option string);
  arrived : nat
}.

(** Functions that talk to the service transform the world. *)
Definition Remote (A : Type) : Type := World -> A * World.

Definition ret {A : Type} (a : A) : Remote A := fun w => (a, w).

Definition bind {A B : Type} (m : Remote A) (k : A -> Remote B) : Remote B :=
  fun w => let '(a, w') := m w in k a w'.

(** The fate of the next SDK call. *)
Definition pending_fault (w : World) : option string :=
  match faults w with
  | [] => None
  | f :: _ => f
  end.

(** The first failure among the coming [n] SDK calls, if there is one. *)
Fixpoint first_fault (n : nat) (script : list (option string))
  : option string :=
  match n, script with
  | S n', None :: script' => first_fault n' script'
  | S _, Some code :: _ => Some code
  | _, _ => None
  end.

(** The world once that call has been made. *)
Definition advance (w : World) : World :=
  MkWorld (blobs w) (now w) (tail (faults w)) (arrived w).

Definition next_fault : Remote (option string) :=
  fun w => (pending_fault w, advance w).

(** One SDK call: it fails as the script says, or else runs. *)
Definition call {A : Type} (run : Remote (result A)) : Remote (result A) :=
  bind next_fault (fun f =>
    match f with
    | Some code => ret (Err (ResponseError code))
    | None => run
    end).

Record SharedKeyCredential : Type := MkCredential {
  accountName : string;
  accountKey : string
}.

Record Client : Type := MkClient {
  serviceURL : string;
  credential : SharedKeyCredential
}.

(** [GetPropertiesResponse], the two fields the module reads. *)
Record Properties : Type := MkProperties {
  LastModified : Time;
  ContentLength : Z
}.

Definition NewSharedKeyCredential (name key : string)
  : Remote (result SharedKeyCredential) :=
  call (ret (Ok (MkCredential name key))).

Definition NewClientWithSharedKeyCredential (url : string)
           (cred : SharedKeyCredential) : Remote (result Client) :=
  call (ret (Ok (MkClient url cred))).

(** [client.UploadBuffer]: creates or overwrites the blob. *)
Definition UploadBuffer (c : Client) (container name : string)
           (buffer : list Byte.byte) : Remote (result unit) :=
  call (fun w =>
    (Ok tt,
     MkWorld (<[(container, name) := MkBlob buffer (now w)]> (blobs w))
             (now w) (faults w) (arrived w))).

(** [client.DownloadStream]: the response body. *)
Definition DownloadStream (c : Client) (container name : string)
  : Remote (result (list Byte.byte)) :=
  call (fun w =>
    match blobs w !! (container, name) with
    | Some b => (Ok (Body b), w)
    | None => (Err (ResponseError "BlobNotFound"), w)
    end).

(** [io.ReadAll] on a response body: the whole body and a nil error, or,
    when the stream breaks, the bytes read until then and the error. *)
Definition ReadAll (body : list Byte.byte)
  : Remote (list Byte.byte * option error) :=
  fun w =>
    match pending_fault w with
    | Some code => (take (arrived w) body, Some (ResponseError code), advance w)
    | None => (body, None, advance w)
    end.

(** [client.DeleteBlob]. *)
Definition DeleteBlob (c : Client) (container name : string)
  : Remote (result unit) :=
  call (fun w =>
    match blobs w !! (container, name) with
    | Some _ =>
        (Ok tt, MkWorld (delete (container, name) (blobs w)) (now w) (faults w)
                        (arrived w))
    | None => (Err (ResponseError "BlobNotFound"), w)
    end).

(** [ServiceClient().NewContainerClient(container).NewBlobClient(name)
     .GetProperties]. *)
Definition GetProperties (c : Client) (container name : string)
  : Remote (result Properties) :=
  call (fun w =>
    match blobs w !! (container, name) with
    | Some b =>
        (Ok (MkProperties (BlobLastModified b) (Z.of_nat (length (Body b)))), w)
    | None => (Err (ResponseError "BlobNotFound"), w)
    end).

(** The names in [container] that start with [prefix] (the
    [ListBlobsFlatOptions.Prefix] filter), in the order in which the
    service lists them: ascending, byte by byte. *)
Definition matching (w : World) (container prefix : string) : list string :=
  merge_sort String.le
    (omap (fun '((c, name), _) =>
             if String.eqb c container && gostrings.HasPrefix name prefix
             then Some name else None)
          (map_to_list (blobs w))).

(** The service cuts a listing into segments of at most [maxresults]
    names; even an empty listing has one segment. *)
Definition maxresults : nat := 5000.

Fixpoint segments (names : list string) (room : nat) (cur : list string)
  : list (list string) :=
  match names with
  | [] => [rev cur]
  | name :: names' =>
      match room with
      | O => rev cur :: segments names' (pred maxresults) [name]
      | S room' => segments names' room' (name :: cur)
      end
  end.

(** A pager is the list of segments it has still to fetch:
    [pager.More()] is [pager <> []]. *)
Definition Pager := list (list string).

Definition NewListBlobsFlatPager (c : Client) (container prefix : string)
  : Remote Pager :=
  fun w => (segments (matching w container prefix) maxresults [], w).

(** [pager.NextPage]: the blob names of the next segment. *)
Definition NextPage (page : list string) : Remote (result (list string)) :=
  call (ret (Ok page)).

End azblob.

Notation "x <- m ;; k" := (azblob.bind m (fun x => k))
  (at level 200, m at level 99, only parsing).

(* ===================================================================== *)
(** ** Package [certmagic]: what [Stat] returns *)
(* ===================================================================== *)

Module certmagic.

Record KeyInfo : Type := MkKeyInfo {
  Key : string;
  Modified : Time;
  Size : Z;
  IsTerminal : bool
}.

(** The zero value [certmagic.KeyInfo{}]. *)
Definition KeyInfo_zero : KeyInfo := MkKeyInfo "" 0%Z 0%Z false.

End certmagic.

(* ===================================================================== *)
(** ** Package [caddyfile]: the token dispenser *)
(* ===================================================================== *)

Module caddyfile.

(** The tokens of a Caddyfile: their text, and whether a token starts a
    new line after another (same file, same import chain, same line: the
    lexer's business, taken as given). *)
Class Tokens : Type := {
  Token : Type;
  Text : Token -> string;
  isNextOnNewLine : Token -> Token -> bool
}.

Section dispenser.
Context `{Tokens}.

(** [type Dispenser struct]: the tokens and the index of the current one,
    [-1] before the first [Next]. *)
Record Dispenser : Type := MkDispenser {
  tokens : list Token;
  cursor : Z
}.

Definition len (d : Dispenser) : Z := Z.of_nat (length (tokens d)).

Definition NewDispenser (ts : list Token) : Dispenser := MkDispenser ts (-1).

(** [func (d *Dispenser) Next() bool]. *)
Definition Next (d : Dispenser) : bool * Dispenser :=
  if (cursor d <? len d - 1)%Z
  then (true, MkDispenser (tokens d) (cursor d + 1))
  else (false, d).

(** [func (d *Dispenser) Val() string]. *)
Definition Val (d : Dispenser) : string :=
  if (cursor d <? 0)%Z || (len d <=? cursor d)%Z then ""
  else match tokens d !! Z.to_nat (cursor d) with
       | Some t => Text t
       | None => ""
       end.

(** [func (d *Dispenser) nextOnSameLine() bool]. *)
Definition nextOnSameLine (d : Dispenser) : bool * Dispenser :=
  if (cursor d <? 0)%Z then (true, MkDispenser (tokens d) (cursor d + 1))
  else if (len d - 1 <=? cursor d)%Z then (false, d)
  else
    match tokens d !! Z.to_nat (cursor d), tokens d !! Z.to_nat (cursor d + 1) with
    | Some curr, Some next =>
        if negb (isNextOnNewLine curr next)
        then (true, MkDispenser (tokens d) (cursor d + 1))
        else (false, d)
    | _, _ => (false, d)
    end.

(** [func (d *Dispenser) NextArg() bool]: a block opening is not an
    argument. *)
Definition NextArg (d : Dispenser) : bool * Dispenser :=
  let '(same, d) := nextOnSameLine d in
  if negb same then (false, d)
  else if String.eqb (Val d) "{"
       then (false, MkDispenser (tokens d) (cursor d - 1))
       else (true, d).

(** [func (d *Dispenser) Args(targets ...*string) bool] with the one
    target [&value]: the target is written only when an argument is
    there. *)
Definition Args (value : string) (d : Dispenser) : bool * string * Dispenser :=
  let '(ok, d) := NextArg d in
  if negb ok then (false, value, d) else (true, Val d, d).

End dispenser.

End caddyfile.

(* ===================================================================== *)
(** ** Package [os]: the environment *)
(* ===================================================================== *)

Module goos.

(** The process environment; [os.Getenv] gives [""] for an unset
    variable. *)
Definition Getenv (env : gmap string string) (key : string) : string :=
  default "" (env !! key).

End goos.

(* ===================================================================== *)
(** ** Package [certmagic_azure]: azureBlobStorage.go *)
(* ===================================================================== *)

Module certmagic_azure.
Import azblob certmagic.

(** [type AzureBlob struct]; [Client] is the client [Provision] built. *)
Record AzureBlob : Type := MkAzureBlob {
  AccountName : string;
  AccountKey : string;
  Container : string;
  Prefix : string;
  Client : azblob.Client
}.

(** [_, err := ...; return err]. *)
Definition err_of {A : Type} (r : result A) : option error :=
  match r with
  | Ok _ => None
  | Err err => Some err
  end.

Definition KeyPrefix (az : AzureBlob) (key : string) : string :=
  gopath.Join [Prefix az; key].

Definition CutKeyPrefix (az : AzureBlob) (key : string) : string :=
  let '(cutted, _) := gostrings.CutPrefix key (Prefix az) in
  cutted.

Definition Lock (az : AzureBlob) (key : string) : Remote (option error) :=
  ret None.

Definition Unlock (az : AzureBlob) (key : string) : Remote (option error) :=
  ret None.

Definition Store (az : AzureBlob) (key : string) (value : list Byte.byte)
  : Remote (option error) :=
  let key := KeyPrefix az key in
  r <- UploadBuffer (Client az) (Container az) key value ;;
  ret (err_of r).

Definition Exists (az : AzureBlob) (key : string) : Remote bool :=
  (* Create a service client *)
  let serviceURL := "https://" +:+ AccountName az +:+ ".blob.core.windows.net/" in
  r <- NewSharedKeyCredential (AccountName az) (AccountKey az) ;;
  match r with
  | Err _ => ret false
  | Ok cred =>
      r <- NewClientWithSharedKeyCredential serviceURL cred ;;
      match r with
      | Err _ => ret false
      | Ok azBlobClient =>
          (* Get a client for the container, then for the blob;
             check if the blob exists *)
          r <- GetProperties azBlobClient (Container az) key ;;
          match r with
          | Err _ => ret false (* Some other error occurred *)
          | Ok _ => ret true (* Blob exists *)
          end
      end
  end.

Definition Load (az : AzureBlob) (key : string)
  : Remote (list Byte.byte * option error) :=
  found <- Exists az key ;;
  if negb found then ret ([], Some ErrNotExist)
  else
    let key := KeyPrefix az key in
    r <- DownloadStream (Client az) (Container az) key ;;
    match r with
    | Err err => ret ([], Some err)
    | Ok body => ReadAll body
    end.

Definition Delete (az : AzureBlob) (key : string) : Remote (option error) :=
  let key := KeyPrefix az key in
  r <- DeleteBlob (Client az) (Container az) key ;;
  ret (err_of r).

(** [for pager.More() { page, err := pager.NextPage(ctx) ... }]. *)
Fixpoint List_pages (az : AzureBlob) (pager : Pager) (keys : list string)
  : Remote (list string * option error) :=
  match pager with
  | [] => ret (keys, None)
  | page :: pager' =>
      r <- NextPage page ;;
      match r with
      | Err err => ret ([], Some err)
      | Ok items => List_pages az pager' (keys ++ map (CutKeyPrefix az) items)
      end
  end.

Definition List (az : AzureBlob) (prefix : string) (recursive : bool)
  : Remote (list string * option error) :=
  let prefix := KeyPrefix az prefix in
  pager <- NewListBlobsFlatPager (Client az) (Container az) prefix ;;
  List_pages az pager [].

Definition Stat (az : AzureBlob) (key : string)
  : Remote (KeyInfo * option error) :=
  let key := KeyPrefix az key in
  r <- GetProperties (Client az) (Container az) key ;;
  match r with
  | Err _ => ret (KeyInfo_zero, None)
  | Ok props =>
      ret (MkKeyInfo key (LastModified props) (ContentLength props)
                     (gostrings.HasSuffix key "/"),
           None)
  end.

(** Assignments to the fields of [az] through the pointer receiver. *)
Definition set_AccountName (v : string) (az : AzureBlob) : AzureBlob :=
  MkAzureBlob v (AccountKey az) (Container az) (Prefix az) (Client az).

Definition set_AccountKey (v : string) (az : AzureBlob) : AzureBlob :=
  MkAzureBlob (AccountName az) v (Container az) (Prefix az) (Client az).

Definition set_Container (v : string) (az : AzureBlob) : AzureBlob :=
  MkAzureBlob (AccountName az) (AccountKey az) v (Prefix az) (Client az).

Definition set_Prefix (v : string) (az : AzureBlob) : AzureBlob :=
  MkAzureBlob (AccountName az) (AccountKey az) (Container az) v (Client az).

Definition set_Client (c : azblob.Client) (az : AzureBlob) : AzureBlob :=
  MkAzureBlob (AccountName az) (AccountKey az) (Container az) (Prefix az) c.

(** The [switch key] of [UnmarshalCaddyfile]. *)
Definition assign (key value : string) (az : AzureBlob) : AzureBlob :=
  if String.eqb key "account_name" then set_AccountName value az
  else if String.eqb key "account_key" then set_AccountKey value az
  else if String.eqb key "container" then set_Container value az
  else if String.eqb key "prefix" then set_Prefix value az
  else az.

(** [for d.Next() { ... }]: every iteration moves the cursor on, so one
    iteration per token from the cursor on is enough ([fuel]). *)
Fixpoint UnmarshalCaddyfile_loop `{caddyfile.Tokens} (fuel : nat)
         (az : AzureBlob) (d : caddyfile.Dispenser)
  : AzureBlob * caddyfile.Dispenser :=
  match fuel with
  | O => (az, d)
  | S fuel =>
      let '(more, d) := caddyfile.Next d in
      if negb more then (az, d)
      else
        let value := "" in
        let key := caddyfile.Val d in
        let '(ok, value, d) := caddyfile.Args value d in
        if negb ok then UnmarshalCaddyfile_loop fuel az d
        else UnmarshalCaddyfile_loop fuel (assign key value az) d
  end.

(** [func (az *AzureBlob) UnmarshalCaddyfile(d *caddyfile.Dispenser) error]:
    the receiver and the dispenser as the call leaves them, and the
    error. *)
Definition UnmarshalCaddyfile `{caddyfile.Tokens} (az : AzureBlob)
           (d : caddyfile.Dispenser)
  : AzureBlob * caddyfile.Dispenser * option error :=
  (UnmarshalCaddyfile_loop
     (Z.to_nat (caddyfile.len d - caddyfile.cursor d)) az d,
   None).

(** The errors of [Provision]:
    [fmt.Errorf("failed to create Azure credentials: %w", err)] and
    [fmt.Errorf("failed to create Azure Blob client: %w", err)]. *)
Inductive provision_error : Type :=
  | FailedCredentials (err : error)
  | FailedClient (err : error).

(** [if az.X == "" { az.X = os.Getenv(name) }]. *)
Definition or_env (env : gmap string string) (field name : string) : string :=
  if String.eqb field "" then goos.Getenv env name else field.

(** [func (az *AzureBlob) Provision(ctx caddy.Context) error]: the
    receiver as the call leaves it, and the error. *)
Definition Provision (env : gmap string string) (az : AzureBlob)
  : Remote (AzureBlob * option provision_error) :=
  (* Load Environment *)
  let az := set_AccountName (or_env env (AccountName az) "AZURE_ACCOUNT_NAME") az in
  let az := set_AccountKey (or_env env (AccountKey az) "AZURE_ACCOUNT_KEY") az in
  let az := set_Container (or_env env (Container az) "AZURE_CONTAINER") az in
  let az := set_Prefix (or_env env (Prefix az) "AZURE_PREFIX") az in
  (* Create Azure Blob Storage client *)
  r <- NewSharedKeyCredential (AccountName az) (AccountKey az) ;;
  match r with
  | Err err => ret (az, Some (FailedCredentials err))
  | Ok cred =>
      r <- NewClientWithSharedKeyCredential
             ("https://" +:+ AccountName az +:+ ".blob.core.windows.net") cred ;;
      match r with
      | Err err => ret (az, Some (FailedClient err))
      | Ok client => ret (set_Client client az, None)
      end
  end.

(** [func (az AzureBlob) CertMagicStorage() (certmagic.Storage, error)]. *)
Definition CertMagicStorage (az : AzureBlob) : AzureBlob * option error :=
  (az, None).

(** [fmt.Sprintf("Azure Blob Storage Account: %s, Container: %s, Prefix: %s", ...)]. *)
Definition String (az : AzureBlob) : string :=
  "Azure Blob Storage Account: " +:+ AccountName az
  +:+ ", Container: " +:+ Container az
  +:+ ", Prefix: " +:+ Prefix az.

End certmagic_azure.

(* ===================================================================== *)
(** ** Vocabulary of the statements *)
(* ===================================================================== *)

Module keys.

Fixpoint has_slash (s : string) : bool :=
  match s with
  | EmptyString => false
  | String c s' => gopath.is_slash c || has_slash s'
  end.

(** An ordinary path element: not empty, no slash, neither [.] nor [..]. *)
Definition plain_element (e : string) : bool :=
  negb (String.eqb e "") && negb (has_slash e)
  && negb (String.eqb e ".") && negb (String.eqb e "..").

(** The elements of a path, as [strings.Split(s, "/")] gives them. *)
Fixpoint Split (s : string) : list string :=
  match s with
  | EmptyString => [""]
  | String c s' =>
      if gopath.is_slash c then "" :: Split s'
      else match Split s' with
           | e :: es => String c e :: es
           | [] => [String c EmptyString]
           end
  end.

(** A clean relative path: ordinary elements separated by single
    slashes, such as [certificates/example.com/example.com.crt]. *)
Definition clean_relative (p : string) : bool :=
  forallb plain_element (Split p).

(** [/e1/e2/.../en]. *)
Fixpoint slashed (elems : list string) : string :=
  match elems with
  | [] => ""
  | e :: es => String "/"%char (e +:+ slashed es)
  end.

(** [sub] occurs in [s]. *)
Definition contains (s sub : string) : Prop :=
  exists pre post : string, s = pre +:+ sub +:+ post.

End keys.

(* ===================================================================== *)
(** ** The buffer of [Clean], as the loop keeps it *)
(* ===================================================================== *)

Module buffer.
Import gopath.

Definition top_is_slash (out : lazybuf) : bool :=
  match out with
  | EmptyString => false
  | String c _ => is_slash c
  end.

(** No two slashes next to each other. *)
Fixpoint single_slashes (out : lazybuf) : bool :=
  match out with
  | EmptyString => true
  | String c out' => negb (is_slash c && top_is_slash out') && single_slashes out'
  end.

(** The byte written last is not a slash, unless the buffer is the root
    slash alone. *)
Definition settled (rooted : bool) (out : lazybuf) : Prop :=
  top_is_slash out = false \/ (rooted = true /\ out = "/").

(** The first [n] bytes written. *)
Fixpoint base (n : nat) (out : lazybuf) : lazybuf :=
  match out with
  | EmptyString => EmptyString
  | String _ out' => if (n <? String.length out)%nat then base n out' else out
  end.

(** What every iteration of the loop finds and leaves: single slashes, no
    slash at the end, and the part below [dotdot] that [..] must not
    remove is itself a buffer ending in no slash. *)
Definition kept (rooted : bool) (out : lazybuf) (dotdot : nat) : Prop :=
  single_slashes out = true
  /\ settled rooted out
  /\ (dotdot <= String.length out)%nat
  /\ settled rooted (base dotdot out).

End buffer.

(* ===================================================================== *)
(** ** Where a path leads *)
(* ===================================================================== *)

Module levels.
Import gopath.

(** What an element does to the position in the tree: an ordinary element
    goes one level down, [..] one level up, the empty element and [.]
    stay. *)
Definition step (e : string) : Z :=
  if String.eqb e "" || String.eqb e "." then 0%Z
  else if String.eqb e ".." then (-1)%Z else 1%Z.

(** The level on which a path ends, counted downwards from where it
    starts: its ordinary elements less its [..] elements. *)
Definition depth (p : string) : Z :=
  foldr (fun e n => (step e + n)%Z) 0%Z (keys.Split p).

(** A path that does not begin at the root. *)
Definition relative (p : string) : bool :=
  negb (gostrings.HasPrefix p "/").

(** The buffer with the slash that [Clean] writes before an element:
    none into an empty buffer, none after the root slash. *)
Definition sep (rooted : bool) (out : lazybuf) : lazybuf :=
  if (rooted && negb (String.length out =? 1)%nat)
     || (negb rooted && negb (String.length out =? 0)%nat)
  then String "/"%char out else out.

(** The buffers that [Clean] builds: for a relative path the [..]
    elements that could not be resolved, which fill the buffer up to
    [dotdot], for a rooted path the root slash; then ordinary elements.
    The last index is the level on which the path in the buffer ends. *)
Inductive stack : bool -> lazybuf -> nat -> Z -> Prop :=
  | stack_empty : stack false EmptyString 0 0%Z
  | stack_root : stack true (String "/"%char EmptyString) 1 0%Z
  | stack_dotdot (out : lazybuf) (n : Z) :
      stack false out (String.length out) n ->
      stack false (String "."%char (String "."%char (sep false out)))
            (String.length
               (String "."%char (String "."%char (sep false out))))
            (n - 1)%Z
  | stack_element (rooted : bool) (out : lazybuf) (dotdot : nat) (n : Z)
                  (e : string) :
      stack rooted out dotdot n ->
      keys.plain_element e = true ->
      stack rooted (String.rev_app e (sep rooted out)) dotdot (n + 1)%Z.

End levels.

(* ===================================================================== *)
(** ** The contract, as stated *)
(* ===================================================================== *)

Module contract.
Import azblob certmagic certmagic_azure.

(** Between [w] and [w'] an object appeared in the container. *)
Definition object_created (az : AzureBlob) (w w' : World) : Prop :=
  exists name : string,
    blobs w !! (Container az, name) = None
    /\ is_Some (blobs w' !! (Container az, name)).

(** Exclusive locking: a [Lock] that returns success has created its
    lock object, and a further [Lock] for the same key does not succeed
    while the lock is held.  Calls are atomic in this model, so two
    concurrent calls are two calls one after the other, in either order. *)
Definition Lock_exclusive (az : AzureBlob) (key : string) (w : World) : Prop :=
  forall w1 : World,
    Lock az key w = (None, w1) ->
    object_created az w w1
    /\ (forall w2 : World, Lock az key w1 <> (None, w2)).

(** [Stat] succeeds when the metadata fetch at the resolved path does. *)
Definition Stat_succeeds (az : AzureBlob) (key : string) (w : World) : Prop :=
  exists (props : Properties) (w' : World),
    GetProperties (Client az) (Container az) (KeyPrefix az key) w
    = (Ok props, w').

(** The [Key] field is the resolved path, and differs from the logical
    key whenever a prefix is configured. *)
Definition Stat_Key_resolved (az : AzureBlob) (key : string) (w : World)
  : Prop :=
  Stat_succeeds az key w ->
  Key (Stat az key w).1.1 = KeyPrefix az key
  /\ (Prefix az <> "" -> Key (Stat az key w).1.1 <> key).

End contract.

(* ===================================================================== *)
(** ** Settings in a Caddyfile *)
(* ===================================================================== *)

Module settings.
Import caddyfile certmagic_azure.

Section settings.
Context `{Tokens}.

(** A directive token and its argument token, one after the other. *)
Definition flat (pairs : list (Token * Token)) : list Token :=
  flat_map (fun kv => [kv.1; kv.2]) pairs.

(** The argument is on the line of its directive and opens no block. *)
Definition well_formed (kv : Token * Token) : Prop :=
  isNextOnNewLine kv.1 kv.2 = false /\ Text kv.2 <> "{".

(** The assignments the pairs stand for, first to last. *)
Definition assign_all (pairs : list (Token * Token)) (az : AzureBlob)
  : AzureBlob :=
  fold_left (fun a kv => assign (Text kv.1) (Text kv.2) a) pairs az.

(** The token that follows the block opening. *)
Definition first_token (pairs : list (Token * Token)) (close : Token) : Token :=
  match pairs with
  | kv :: _ => kv.1
  | [] => close
  end.

End settings.

End settings.

(* ===================================================================== *)
(** ** Sample configurations and worlds *)
(* ===================================================================== *)

Module sample.
Import azblob certmagic_azure.

Definition client : azblob.Client :=
  MkClient "https://certstore.blob.core.windows.net"
           (MkCredential "certstore" "c2VjcmV0").

(** A backend with the prefix [caddy]. *)
Definition az : AzureBlob :=
  MkAzureBlob "certstore" "c2VjcmV0" "tls" "caddy" client.

(** The same backend without prefix. *)
Definition az_plain : AzureBlob :=
  MkAzureBlob "certstore" "c2VjcmV0" "tls" "" client.

(** The same backend with the prefix [.]. *)
Definition az_dot : AzureBlob :=
  MkAzureBlob "certstore" "c2VjcmV0" "tls" "." client.

Definition key : string := "certificates/example.com.crt".

Definition payload : list Byte.byte :=
  [Byte.x2d; Byte.x2d; Byte.x42; Byte.x45; Byte.x47; Byte.x49; Byte.x4e].

(** An empty account, every call going through. *)
Definition empty : World := MkWorld ∅ 1000%Z [] 0.

(** The certificate stored where [Store] puts it. *)
Definition stored : World :=
  MkWorld {[ ("tls", "caddy/certificates/example.com.crt") := MkBlob payload 1000%Z ]}
          1000%Z [] 0.

(** [empty], with the second SDK call failing. *)
Definition empty_failing : World :=
  MkWorld ∅ 1000%Z [None; Some "AuthenticationFailed"] 0.

(** A blob under the bare logical key only. *)
Definition bare : World :=
  MkWorld {[ ("tls", "certificates/example.com.crt") := MkBlob payload 1000%Z ]}
          1000%Z [] 0.

(** [bare], with the body of the download breaking after three bytes. *)
Definition bare_breaking : World :=
  MkWorld {[ ("tls", "certificates/example.com.crt") := MkBlob payload 1000%Z ]}
          1000%Z [None; None; None; None; Some "ConnectionReset"] 3.

(** [stored], with the next SDK call failing. *)
Definition stored_failing : World :=
  MkWorld {[ ("tls", "caddy/certificates/example.com.crt") := MkBlob payload 1000%Z ]}
          1000%Z [Some "AuthenticationFailed"] 0.

(** Caddyfile tokens as text and line number, all of one file. *)
Definition line_tokens : caddyfile.Tokens := {|
  caddyfile.Token := string * nat;
  caddyfile.Text := fst;
  caddyfile.isNextOnNewLine := fun t1 t2 => (snd t1 <? snd t2)%nat
|}.

(** [azure_blob {] and four settings, one per line, then [}]. *)
Definition block_settings : list ((string * nat) * (string * nat)) :=
  [(("account_name", 2), ("certstore", 2));
   (("account_key", 3), ("c2VjcmV0", 3));
   (("container", 4), ("tls", 4));
   (("prefix", 5), ("caddy", 5))]%nat.

Definition unconfigured : AzureBlob := MkAzureBlob "" "" "" "" client.

(** The environment of a process that sets the four variables. *)
Definition env : gmap string string :=
  {[ "AZURE_ACCOUNT_NAME" := "envstore"; "AZURE_ACCOUNT_KEY" := "ZW52";
     "AZURE_CONTAINER" := "envtls"; "AZURE_PREFIX" := "envcaddy" ]}.

End sample.

(* ===================================================================== *)
(** ** Strings *)
(* ===================================================================== *)

Section string_facts.

Lemma app_empty_l (s : string) : "" +:+ s = s.
Proof. reflexivity. Qed.

Lemma app_cons (c : ascii) (s t : string) :
  String.String c s +:+ t = String.String c (s +:+ t).
Proof. reflexivity. Qed.

Lemma app_empty_r (s : string) : s +:+ "" = s.
Proof. induction s as [|c s IH]; [reflexivity|]. rewrite app_cons, IH. reflexivity. Qed.

Lemma app_assoc_str (s t u : string) : (s +:+ t) +:+ u = s +:+ t +:+ u.
Proof.
  induction s as [|c s IH]; [reflexivity|].
  rewrite !app_cons, IH. reflexivity.
Qed.

Lemma length_app_str (s t : string) :
  String.length (s +:+ t) = (String.length s + String.length t)%nat.
Proof.
  induction s as [|c s IH]; [reflexivity|].
  rewrite app_cons. simpl. rewrite IH. reflexivity.
Qed.

Lemma substring_all (s : string) : String.substring 0 (String.length s) s = s.
Proof. induction s as [|c s IH]; [reflexivity|]. simpl. rewrite IH. reflexivity. Qed.

Lemma substring_app_head (p s : string) :
  String.substring 0 (String.length p) (p +:+ s) = p.
Proof.
  induction p as [|c p IH].
  - destruct s; reflexivity.
  - rewrite app_cons. simpl. rewrite IH. reflexivity.
Qed.

Lemma substring_app_tail (p s : string) :
  String.substring (String.length p) (String.length s) (p +:+ s) = s.
Proof.
  induction p as [|c p IH].
  - apply substring_all.
  - rewrite app_cons. simpl. exact IH.
Qed.

Lemma rev_app_app (s acc t : string) :
  String.rev_app (String.rev_app s acc) t = String.rev_app acc (s +:+ t).
Proof.
  revert acc. induction s as [|c s IH]; intros acc; [reflexivity|].
  simpl. rewrite IH. reflexivity.
Qed.

Lemma rev_app_onto (a b t : string) :
  String.rev_app a (String.rev_app b t) = String.rev_app (b +:+ a) t.
Proof.
  revert a t. induction b as [|x b IH]; intros a t; [reflexivity|].
  rewrite app_cons. simpl. apply IH.
Qed.

Lemma rev_app_rev (e d : string) :
  String.rev_app e (String.rev d) = String.rev (d +:+ e).
Proof. unfold String.rev. apply rev_app_onto. Qed.

Lemma rev_involutive_str (s : string) : String.rev (String.rev s) = s.
Proof.
  unfold String.rev. rewrite rev_app_app. rewrite !app_empty_r. reflexivity.
Qed.

Lemma rev_length_str (s : string) : String.length (String.rev s) = String.length s.
Proof.
  unfold String.rev.
  assert (G : forall a t, String.length (String.rev_app a t)
                          = (String.length a + String.length t)%nat).
  { induction a as [|c a IH]; intros t; [reflexivity|].
    simpl. rewrite IH. simpl. lia. }
  rewrite G. simpl. lia.
Qed.

Lemma HasSuffix_slash_cons (c : ascii) (s : string) :
  s <> "" ->
  gostrings.HasSuffix (String.String c s) "/" = gostrings.HasSuffix s "/".
Proof.
  intros Hs. destruct s as [|d s]; [congruence|].
  unfold gostrings.HasSuffix.
  cbn [String.length Nat.leb Nat.sub].
  rewrite !Nat.sub_0_r. reflexivity.
Qed.

Lemma HasSuffix_slash_app (a s : string) :
  s <> "" -> gostrings.HasSuffix (a +:+ s) "/" = gostrings.HasSuffix s "/".
Proof.
  intros Hs. induction a as [|c a IH]; [reflexivity|].
  rewrite app_cons, HasSuffix_slash_cons; [exact IH|].
  destruct a; [rewrite app_empty_l; exact Hs | discriminate].
Qed.

End string_facts.

(* ===================================================================== *)
(** ** [path.Clean] and [path.Join] on clean relative paths *)
(* ===================================================================== *)

Section clean_facts.
Import gopath keys.

Lemma is_slash_true (c : ascii) : is_slash c = true -> c = "/"%char.
Proof. unfold is_slash. apply Ascii.eqb_eq. Qed.

Lemma is_dot_true (c : ascii) : is_dot c = true -> c = "."%char.
Proof. unfold is_dot. apply Ascii.eqb_eq. Qed.

Lemma has_slash_cons (c : ascii) (s : string) :
  has_slash (String.String c s) = false ->
  is_slash c = false /\ has_slash s = false.
Proof. simpl. apply orb_false_elim. Qed.

Lemma plain_element_inv (e : string) :
  plain_element e = true ->
  e <> "" /\ has_slash e = false /\ e <> "." /\ e <> "..".
Proof.
  unfold plain_element. rewrite !andb_true_iff, !negb_true_iff.
  intros [[[H1 H2] H3] H4].
  repeat split; try assumption; by apply String.eqb_neq.
Qed.

Lemma slashed_at_end_or_slash (es : list string) :
  at_end_or_slash (slashed es) = true.
Proof. destruct es; reflexivity. Qed.

Lemma slashed_app (a b : list string) :
  slashed (a ++ b) = slashed a +:+ slashed b.
Proof.
  induction a as [|e a IH]; [reflexivity|].
  simpl. rewrite IH, app_cons, app_assoc_str. reflexivity.
Qed.

(** The copy loop moves one slash-free element to the buffer. *)
Lemma copy_element_plain (e rest : string) (out : lazybuf) :
  has_slash e = false -> at_end_or_slash rest = true ->
  copy_element (e +:+ rest) out = (rest, String.rev_app e out).
Proof.
  revert out. induction e as [|c e IH]; intros out He Hrest.
  - rewrite app_empty_l. destruct rest as [|d rest]; [reflexivity|].
    simpl in Hrest. simpl. rewrite Hrest. reflexivity.
  - apply has_slash_cons in He as [Hc He].
    rewrite app_cons. simpl. rewrite Hc. apply IH; assumption.
Qed.

(** One iteration of the main loop on an ordinary element takes the
    default branch: a slash when the buffer is not empty, then the
    element. *)
Lemma clean_loop_element (fuel : nat) (e rest : string) (out : lazybuf)
      (dotdot : nat) :
  plain_element e = true -> at_end_or_slash rest = true ->
  clean_loop (S fuel) false (e +:+ rest) out dotdot
  = clean_loop fuel false rest
      (String.rev_app e (if (String.length out =? 0)%nat then out
                         else String.String "/"%char out))
      dotdot.
Proof.
  intros He Hrest.
  apply plain_element_inv in He as (Hne & Hsl & Hdot & Hdotdot).
  pose proof (copy_element_plain e rest
                (if (String.length out =? 0)%nat then out
                 else String.String "/"%char out) Hsl Hrest) as Hcopy.
  destruct e as [|c e]; [congruence|].
  apply has_slash_cons in Hsl as [Hc Hsl].
  rewrite app_cons in *.
  cbn [clean_loop]. rewrite Hc.
  assert (Hcase1 : is_dot c && at_end_or_slash (e +:+ rest) = false).
  { destruct (is_dot c) eqn:Hd; [|reflexivity].
    apply is_dot_true in Hd as ->.
    destruct e as [|d e]; [congruence|].
    apply has_slash_cons in Hsl as [Hd _]. rewrite app_cons. simpl. exact Hd. }
  rewrite Hcase1.
  assert (Hcase2 : is_dot c
                   && match e +:+ rest with
                      | String.String c1 rest2 => is_dot c1 && at_end_or_slash rest2
                      | EmptyString => false
                      end = false).
  { destruct (is_dot c) eqn:Hd; [|reflexivity].
    apply is_dot_true in Hd as ->.
    destruct e as [|d e]; [congruence|].
    apply has_slash_cons in Hsl as [_ Hsl].
    rewrite app_cons. simpl.
    destruct (is_dot d) eqn:Hd; [|reflexivity].
    apply is_dot_true in Hd as ->.
    destruct e as [|x e]; [congruence|].
    apply has_slash_cons in Hsl as [Hx _]. rewrite app_cons. simpl. exact Hx. }
  rewrite Hcase2.
  cbn [andb orb negb].
  destruct (String.length out =? 0)%nat; cbn [negb]; rewrite Hcopy; reflexivity.
Qed.

(** The loop copies a run of ordinary elements unchanged. *)
Lemma clean_loop_slashed (es : list string) :
  forall (fuel : nat) (done : string),
    forallb plain_element es = true -> done <> "" ->
    (String.length (slashed es) <= fuel)%nat ->
    clean_loop fuel false (slashed es) (String.rev done) 0
    = String.rev (done +:+ slashed es).
Proof.
  induction es as [|e es IH]; intros fuel done Hes Hdone Hfuel.
  - simpl. rewrite app_empty_r. destruct fuel; reflexivity.
  - simpl in Hes. apply andb_true_iff in Hes as [He Hes].
    pose proof (plain_element_inv e He) as (Hne & _).
    simpl in Hfuel. rewrite length_app_str in Hfuel.
    assert (Hlen1 : (1 <= String.length e)%nat)
      by (destruct e; [congruence | simpl; lia]).
    destruct fuel as [|[|fuel]]; [lia | lia |].
    cbn [slashed].
    change (clean_loop (S (S fuel)) false
              (String.String "/"%char (e +:+ slashed es)) (String.rev done) 0)
      with (clean_loop (S fuel) false (e +:+ slashed es) (String.rev done) 0).
    rewrite clean_loop_element by (assumption || apply slashed_at_end_or_slash).
    rewrite rev_length_str.
    destruct (String.length done =? 0)%nat eqn:Hlen.
    { destruct done; [congruence | discriminate]. }
    change (String.String "/"%char (String.rev done))
      with (String.rev_app "/" (String.rev done)).
    rewrite !rev_app_rev.
    rewrite IH.
    + rewrite !app_assoc_str. reflexivity.
    + exact Hes.
    + destruct done; [congruence | discriminate].
    + lia.
Qed.

(** [Clean] leaves a clean relative path as it is. *)
Lemma Clean_elements (e : string) (es : list string) :
  plain_element e = true -> forallb plain_element es = true ->
  Clean (e +:+ slashed es) = e +:+ slashed es.
Proof.
  intros He Hes.
  pose proof (plain_element_inv e He) as (Hne & Hsl & _).
  unfold Clean.
  destruct (e +:+ slashed es) as [|c path] eqn:Hpath.
  { destruct e; [congruence | discriminate]. }
  assert (Hc : is_slash c = false).
  { destruct e as [|c' e]; [congruence|]. rewrite app_cons in Hpath.
    injection Hpath as -> _. by apply has_slash_cons in Hsl as [? _]. }
  rewrite Hc. rewrite <- Hpath.
  assert (Hlen : String.length (e +:+ slashed es)
                 = S (String.length path)) by (rewrite Hpath; reflexivity).
  rewrite Hlen.
  rewrite clean_loop_element by (assumption || apply slashed_at_end_or_slash).
  change (String.rev_app e (if (String.length "" =? 0)%nat then ""
                            else String.String "/"%char ""))
    with (String.rev e).
  rewrite clean_loop_slashed; [| assumption.. |].
  - rewrite rev_length_str, Hlen. cbn [Nat.eqb]. apply rev_involutive_str.
  - rewrite length_app_str in Hlen. destruct e; [congruence|]. simpl in Hlen. lia.
Qed.

Lemma Split_slashed (s : string) :
  exists (e : string) (es : list string),
    Split s = e :: es /\ s = e +:+ slashed es.
Proof.
  induction s as [|c s (e & es & HS & Hs)].
  - exists "", []. split; reflexivity.
  - simpl. destruct (is_slash c) eqn:Hc.
    + apply is_slash_true in Hc as ->.
      exists "", (e :: es). rewrite HS. split; [reflexivity|].
      rewrite app_empty_l. simpl. rewrite <- Hs. reflexivity.
    + rewrite HS. exists (String.String c e), es. split; [reflexivity|].
      rewrite app_cons, <- Hs. reflexivity.
Qed.

Lemma clean_relative_elements (p : string) :
  clean_relative p = true ->
  exists (e : string) (es : list string),
    p = e +:+ slashed es
    /\ plain_element e = true /\ forallb plain_element es = true.
Proof.
  unfold clean_relative. intros Hp.
  destruct (Split_slashed p) as (e & es & HS & ->).
  rewrite HS in Hp. simpl in Hp. apply andb_true_iff in Hp as [He Hes].
  exists e, es. auto.
Qed.

Lemma clean_relative_nonempty (p : string) :
  clean_relative p = true -> p <> "".
Proof. intros Hp ->. discriminate. Qed.

Lemma Clean_clean_relative (p : string) :
  clean_relative p = true -> Clean p = p.
Proof.
  intros (e & es & -> & He & Hes)%clean_relative_elements.
  by apply Clean_elements.
Qed.

(** [Join] of a non-empty prefix and a key: both, with a slash between,
    cleaned. *)
Lemma Join_two (p k : string) :
  p <> "" -> Join [p; k] = Clean (p +:+ "/" +:+ k).
Proof.
  intros Hp. destruct p as [|c p]; [congruence|].
  unfold Join.
  change (join_buf "" [String.String c p; k])
    with ((String.String c p +:+ "/") +:+ k).
  rewrite app_assoc_str. reflexivity.
Qed.

(** [Join] of the empty prefix and a key: the key, cleaned. *)
Lemma Join_empty (k : string) :
  k <> "" -> Join [""; k] = Clean k.
Proof.
  intros Hk. destruct k as [|c k]; [congruence|].
  unfold Join. cbn [foldr String.length Nat.add Nat.eqb]. reflexivity.
Qed.

Lemma Join_clean_relative (p k : string) :
  clean_relative p = true -> clean_relative k = true ->
  Join [p; k] = p +:+ "/" +:+ k.
Proof.
  intros Hp Hk.
  rewrite Join_two by (by apply clean_relative_nonempty).
  apply clean_relative_elements in Hp as (e & es & -> & He & Hes).
  apply clean_relative_elements in Hk as (e' & es' & -> & He' & Hes').
  rewrite !app_assoc_str.
  change ("/" +:+ e' +:+ slashed es') with (slashed (e' :: es')).
  rewrite <- slashed_app.
  apply Clean_elements; [assumption|].
  rewrite forallb_app. simpl. rewrite Hes, He', Hes'. reflexivity.
Qed.

Lemma Join_empty_prefix (k : string) :
  clean_relative k = true -> Join [""; k] = k.
Proof.
  intros Hk.
  rewrite Join_empty by (by apply clean_relative_nonempty).
  by apply Clean_clean_relative.
Qed.

End clean_facts.

(** Rows of Go's own [TestClean] and [TestJoin], replayed on the model. *)
Example Clean_table :
  map gopath.Clean
      [""; "abc"; "abc/def"; "a/b/c"; "."; ".."; "../.."; "../../abc"; "/abc"; "/";
       "abc/"; "abc/def/"; "./"; "../"; "../../"; "/abc/";
       "abc//def//ghi"; "//abc"; "///abc"; "//abc//"; "abc//";
       "abc/./def"; "/./abc/def"; "abc/.";
       "abc/def/ghi/../jkl"; "abc/def/../ghi/../jkl"; "abc/def/..";
       "abc/def/../.."; "/abc/def/../.."; "abc/def/../../..";
       "/abc/def/../../.."; "abc/def/../../../ghi/jkl/../../../mno";
       "abc/./../def"; "abc//./../def"; "abc/../../././../def"]
  = ["."; "abc"; "abc/def"; "a/b/c"; "."; ".."; "../.."; "../../abc"; "/abc"; "/";
     "abc"; "abc/def"; "."; ".."; "../.."; "/abc";
     "abc/def/ghi"; "/abc"; "/abc"; "/abc"; "abc";
     "abc/def"; "/abc/def"; "abc";
     "abc/def/jkl"; "abc/jkl"; "abc";
     "."; "/"; "..";
     "/"; "../../mno";
     "def"; "def"; "../../def"].
Proof. vm_compute. reflexivity. Qed.

Example Join_table :
  map gopath.Join
      [[]; [""]; ["a"]; ["a"; "b"]; ["a"; ""]; [""; "b"]; ["/"; "a"];
       ["/"; ""]; ["a/"; "b"]; ["a/"; ""]; [""; ""]]
  = [""; ""; "a"; "a/b"; "a"; "b"; "/a"; "/"; "a/b"; "a"; ""].
Proof. vm_compute. reflexivity. Qed.

(* ===================================================================== *)
(** ** The fuel of [Clean] is enough *)
(* ===================================================================== *)

Section clean_fuel.
Import gopath.

Lemma copy_element_length (rest : string) (out : lazybuf) :
  (String.length (copy_element rest out).1 <= String.length rest)%nat.
Proof.
  revert out. induction rest as [|c rest IH]; intros out; [reflexivity|].
  simpl. destruct (is_slash c); simpl; [lia|].
  specialize (IH (String.String c out)). lia.
Qed.

(** Any two amounts of fuel that cover the unread bytes give the same
    buffer: the loop of [Clean] always runs to the end of the path. *)
Lemma clean_loop_fuel (fuel1 : nat) :
  forall (fuel2 : nat) (rooted : bool) (rest : string) (out : lazybuf)
         (dotdot : nat),
    (String.length rest <= fuel1)%nat -> (String.length rest <= fuel2)%nat ->
    clean_loop fuel1 rooted rest out dotdot
    = clean_loop fuel2 rooted rest out dotdot.
Proof.
  induction fuel1 as [|fuel1 IH];
    intros [|fuel2] rooted [|c rest1] out dotdot H1 H2;
    simpl in H1, H2; try lia; try reflexivity.
  cbn [clean_loop].
  destruct (is_slash c) eqn:Hc; [apply IH; lia|].
  destruct (is_dot c && at_end_or_slash rest1); [apply IH; lia|].
  destruct (is_dot c && _).
  - assert (Hrest2 : (String.length match rest1 with
                                    | String.String _ rest2 => rest2
                                    | EmptyString => EmptyString
                                    end <= String.length rest1)%nat)
      by (destruct rest1; simpl; lia).
    destruct (dotdot <? String.length out)%nat.
    + destruct out; apply IH; lia.
    + destruct (negb rooted); apply IH; lia.
  - cbn [copy_element]. rewrite Hc.
    match goal with
    | |- context [copy_element rest1 ?o] =>
        pose proof (copy_element_length rest1 o) as Hlen;
        destruct (copy_element rest1 o) as [rest' out2]
    end.
    simpl in Hlen. apply IH; lia.
Qed.

End clean_fuel.

(* ===================================================================== *)
(** ** [path.Clean] never leaves a trailing slash *)
(* ===================================================================== *)

Section clean_trailing_slash.
Import gopath buffer.

Lemma base_push (n : nat) (c : ascii) (out : lazybuf) :
  (n <= String.length out)%nat -> base n (String.String c out) = base n out.
Proof.
  intros Hn. cbn [base String.length].
  replace (n <? S (String.length out))%nat with true
    by (symmetry; apply Nat.ltb_lt; lia).
  reflexivity.
Qed.

Lemma base_all (out : lazybuf) : base (String.length out) out = out.
Proof.
  destruct out as [|c out]; [reflexivity|].
  cbn [base]. rewrite Nat.ltb_irrefl. reflexivity.
Qed.

Lemma kept_push (rooted : bool) (c : ascii) (out : lazybuf) (dotdot : nat) :
  is_slash c = false ->
  single_slashes out = true -> (dotdot <= String.length out)%nat ->
  settled rooted (base dotdot out) ->
  kept rooted (String.String c out) dotdot.
Proof.
  intros Hc Hs Hd Hb. unfold kept. cbn [single_slashes]. rewrite Hc, Hs.
  repeat split.
  - left. exact Hc.
  - simpl. lia.
  - rewrite base_push by assumption. exact Hb.
Qed.

(** The copy loop keeps the buffer in shape once a byte of the element is
    in. *)
Lemma copy_element_kept (rooted : bool) (rest : string) :
  forall (out : lazybuf) (dotdot : nat),
    kept rooted out dotdot -> top_is_slash out = false ->
    kept rooted (copy_element rest out).2 dotdot
    /\ top_is_slash (copy_element rest out).2 = false.
Proof.
  induction rest as [|c rest IH]; intros out dotdot Hk Htop; [by split|].
  cbn [copy_element]. destruct (is_slash c) eqn:Hc; [by split|].
  destruct Hk as (Hs & _ & Hd & Hb).
  apply IH; [|exact Hc]. by apply kept_push.
Qed.

(** Going back over one element keeps the buffer in shape. *)
Lemma backtrack_kept (rooted : bool) (dotdot : nat) (out : lazybuf) :
  forall removed : ascii,
    single_slashes (String.String removed out) = true ->
    (dotdot <= String.length out)%nat ->
    settled rooted (base dotdot out) ->
    kept rooted (backtrack removed out dotdot) dotdot.
Proof.
  induction out as [|c out IH]; intros removed Hs Hd Hb.
  - repeat split; try (left; reflexivity). exact Hd.
  - cbn [single_slashes] in Hs. apply andb_true_iff in Hs as [Hrc Hs].
    cbn [backtrack].
    destruct (dotdot <? String.length (String.String c out))%nat eqn:Hlt; cbn [andb].
    + apply Nat.ltb_lt in Hlt. cbn [String.length] in Hlt.
      destruct (is_slash removed) eqn:Hr; cbn [negb].
      * (* stopped at a slash: what is below does not end in one *)
        cbn [top_is_slash andb negb] in Hrc. apply negb_true_iff in Hrc.
        repeat split; [exact Hs | left; exact Hrc | exact Hd | exact Hb].
      * apply IH; [exact Hs | lia |].
        cbn [base] in Hb.
        replace (dotdot <? String.length (String.String c out))%nat with true in Hb
          by (symmetry; apply Nat.ltb_lt; simpl; lia).
        exact Hb.
    + (* stopped at [dotdot]: the buffer is its own base *)
      apply Nat.ltb_ge in Hlt.
      assert (Hbase : base dotdot (String.String c out) = String.String c out).
      { cbn [base]. replace (dotdot <? String.length (String.String c out))%nat
          with false by (symmetry; apply Nat.ltb_ge; exact Hlt). reflexivity. }
      rewrite Hbase in Hb.
      repeat split; [exact Hs | exact Hb | exact Hd | rewrite Hbase; exact Hb].
Qed.

(** The loop of [Clean] keeps the buffer in shape. *)
Lemma clean_loop_kept (fuel : nat) :
  forall (rooted : bool) (rest : string) (out : lazybuf) (dotdot : nat),
    kept rooted out dotdot ->
    exists dotdot' : nat,
      kept rooted (clean_loop fuel rooted rest out dotdot) dotdot'.
Proof.
  induction fuel as [|fuel IH]; intros rooted rest out dotdot Hk.
  { by exists dotdot. }
  destruct rest as [|c rest1]; [by exists dotdot|].
  cbn [clean_loop].
  destruct (is_slash c) eqn:Hc; [by apply IH|].
  destruct (is_dot c && at_end_or_slash rest1); [by apply IH|].
  destruct (is_dot c && _).
  - (* .. element *)
    destruct (dotdot <? String.length out)%nat eqn:Hlt.
    + destruct out as [|last out']; [by apply IH|].
      apply IH. apply Nat.ltb_lt in Hlt. cbn [String.length] in Hlt.
      destruct Hk as (Hs & _ & _ & Hb).
      apply backtrack_kept; [exact Hs | lia |].
      rewrite base_push in Hb by lia. exact Hb.
    + destruct rooted; cbn [negb]; [by apply IH|].
      apply IH. destruct Hk as (Hs & Hset & Hd & Hb).
      assert (Htop : top_is_slash out = false).
      { destruct Hset as [H|[H _]]; [exact H | discriminate]. }
      set (out1 := if (0 <? String.length out)%nat
                   then String.String "/"%char out else out).
      assert (Hs1 : single_slashes out1 = true).
      { subst out1. destruct (0 <? String.length out)%nat; [|exact Hs].
        cbn [single_slashes]. rewrite Htop, Hs. reflexivity. }
      repeat split.
      * cbn [single_slashes top_is_slash]. rewrite Hs1. reflexivity.
      * left. reflexivity.
      * lia.
      * rewrite base_all. left. reflexivity.
  - (* real path element *)
    cbn [copy_element]. rewrite Hc.
    destruct Hk as (Hs & Hset & Hd & Hb).
    set (out1 := if (rooted && negb (String.length out =? 1)%nat)
                    || (negb rooted && negb (String.length out =? 0)%nat)
                 then String.String "/"%char out else out).
    assert (H1 : single_slashes out1 = true
                 /\ (dotdot <= String.length out1)%nat
                 /\ base dotdot out1 = base dotdot out).
    { subst out1.
      destruct (_ || _) eqn:Hcond; [|by repeat split].
      assert (Htop : top_is_slash out = false).
      { destruct Hset as [H|[-> ->]]; [exact H|]. discriminate Hcond. }
      cbn [single_slashes]. rewrite Htop, Hs.
      repeat split; [simpl; lia | by apply base_push]. }
    destruct H1 as (Hs1 & Hd1 & Hb1).
    assert (Hk2 : kept rooted (String.String c out1) dotdot).
    { apply kept_push; [exact Hc | exact Hs1 | exact Hd1 |].
      rewrite Hb1. exact Hb. }
    destruct (copy_element_kept rooted rest1 _ dotdot Hk2 Hc) as [Hk3 _].
    destruct (copy_element rest1 (String.String c out1)) as [rest' out2].
    by apply IH.
Qed.

(** The loop of [Clean] leaves a buffer that ends in no slash, unless it
    is the root alone. *)
Lemma clean_loop_settled (fuel : nat) :
  forall (rooted : bool) (rest : string) (out : lazybuf) (dotdot : nat),
    kept rooted out dotdot ->
    settled rooted (clean_loop fuel rooted rest out dotdot).
Proof.
  intros rooted rest out dotdot Hk.
  destruct (clean_loop_kept fuel rooted rest out dotdot Hk) as (d & _ & H & _).
  exact H.
Qed.

Lemma rev_app_spec (out : string) :
  forall t : string, String.rev_app out t = String.rev out +:+ t.
Proof.
  induction out as [|a out IH]; intros t; [reflexivity|].
  unfold String.rev. cbn [String.rev_app].
  rewrite (IH (String.String a t)), (IH (String.String a "")).
  rewrite app_assoc_str. reflexivity.
Qed.

Lemma rev_push (c : ascii) (out : string) :
  String.rev (String.String c out) = String.rev out +:+ String.String c "".
Proof. unfold String.rev at 1. cbn [String.rev_app]. apply rev_app_spec. Qed.

Lemma HasSuffix_slash_rev (out : lazybuf) :
  gostrings.HasSuffix (String.rev out) "/" = top_is_slash out.
Proof.
  destruct out as [|c out]; [reflexivity|].
  rewrite rev_push, HasSuffix_slash_app by discriminate.
  unfold gostrings.HasSuffix. cbn. unfold is_slash.
  destruct (Ascii.eqb c "/"); reflexivity.
Qed.

(** A cleaned path ends in a slash only when it is the root. *)
Lemma Clean_trailing_slash (p : string) :
  gostrings.HasSuffix (Clean p) "/" = true -> Clean p = "/".
Proof.
  unfold Clean. destruct p as [|c rest1]; [discriminate|].
  set (out := if is_slash c then _ else _).
  assert (Hset : settled (is_slash c) out).
  { subst out. destruct (is_slash c) eqn:Hc; apply clean_loop_settled.
    - unfold kept.
      split_and!; [reflexivity | right; by split | simpl; lia | right; by split].
    - unfold kept.
      split_and!; [reflexivity | by left | simpl; lia | by left]. }
  destruct (String.length out =? 0)%nat; [discriminate|].
  rewrite HasSuffix_slash_rev. intros Htop.
  destruct Hset as [H|[_ ->]]; [congruence | reflexivity].
Qed.

Lemma Join_trailing_slash (elem : list string) :
  gostrings.HasSuffix (Join elem) "/" = true -> Join elem = "/".
Proof.
  unfold Join. destruct (_ =? 0)%nat; [discriminate|].
  apply Clean_trailing_slash.
Qed.

End clean_trailing_slash.

(* ===================================================================== *)
(** ** [Clean] keeps the level on which a relative path ends *)
(* ===================================================================== *)

Section clean_levels.
Import gopath keys levels.

Lemma Split_nonempty (s : string) : Split s <> [].
Proof.
  induction s as [|c s IH]; simpl; [discriminate|].
  destruct (is_slash c); [discriminate|]. destruct (Split s); discriminate.
Qed.

Lemma Split_plain (e : string) : has_slash e = false -> Split e = [e].
Proof.
  induction e as [|c e IH]; intros He; [reflexivity|].
  apply has_slash_cons in He as [Hc He].
  simpl. rewrite Hc, (IH He). reflexivity.
Qed.

Lemma Split_app_slash (a b : string) :
  Split (a +:+ String.String "/"%char b) = Split a ++ Split b.
Proof.
  induction a as [|c a IH]; [reflexivity|].
  rewrite app_cons. simpl. rewrite IH.
  destruct (is_slash c); [reflexivity|].
  pose proof (Split_nonempty a). destruct (Split a); [congruence|reflexivity].
Qed.

Lemma depth_empty : depth "" = 0%Z.
Proof. reflexivity. Qed.

Lemma depth_slash (s : string) : depth (String.String "/"%char s) = depth s.
Proof. reflexivity. Qed.

Lemma depth_app_slash (a b : string) :
  depth (a +:+ String.String "/"%char b) = (depth a + depth b)%Z.
Proof.
  unfold depth. rewrite Split_app_slash.
  induction (Split a) as [|e es IH]; simpl; [reflexivity|].
  rewrite IH. lia.
Qed.

(** An element and what follows it. *)
Lemma depth_element (e rest : string) :
  has_slash e = false -> at_end_or_slash rest = true ->
  depth (e +:+ rest) = (step e + depth rest)%Z.
Proof.
  intros He Hr. destruct rest as [|c r].
  - rewrite app_empty_r, depth_empty. unfold depth.
    rewrite (Split_plain e He). reflexivity.
  - simpl in Hr. apply is_slash_true in Hr as ->.
    rewrite depth_app_slash, depth_slash. unfold depth at 1.
    rewrite (Split_plain e He). simpl. lia.
Qed.

Lemma step_plain (e : string) : plain_element e = true -> step e = 1%Z.
Proof.
  unfold plain_element, step.
  rewrite !andb_true_iff, !negb_true_iff. intros [[[-> _] ->] ->].
  reflexivity.
Qed.

Lemma depth_plain (e : string) : plain_element e = true -> depth e = 1%Z.
Proof.
  intros He. pose proof (plain_element_inv e He) as (_ & Hs & _).
  unfold depth. rewrite (Split_plain e Hs). simpl.
  rewrite (step_plain e He). reflexivity.
Qed.

Lemma rev_app_length (a t : string) :
  String.length (String.rev_app a t)
  = (String.length a + String.length t)%nat.
Proof.
  revert t. induction a as [|c a IH]; intros t; [reflexivity|].
  simpl. rewrite IH. simpl. lia.
Qed.

Lemma rev_rev_app (e t : string) :
  String.rev (String.rev_app e t) = String.rev t +:+ e.
Proof.
  rewrite <- (rev_involutive_str t) at 1.
  rewrite rev_app_rev. apply rev_involutive_str.
Qed.

Lemma sep_length (rooted : bool) (out : lazybuf) :
  (String.length out <= String.length (sep rooted out))%nat.
Proof. unfold sep. destruct (_ || _); simpl; lia. Qed.

Lemma sep_dotdot (out : lazybuf) :
  (if (0 <? String.length out)%nat then String.String "/"%char out else out)
  = sep false out.
Proof. destruct out; reflexivity. Qed.

Lemma sep_empty : sep false "" = "".
Proof. reflexivity. Qed.

Lemma sep_root : sep true "/" = "/".
Proof. reflexivity. Qed.

Lemma sep_relative (c : ascii) (o : lazybuf) :
  sep false (String.String c o)
  = String.String "/"%char (String.String c o).
Proof. reflexivity. Qed.

Lemma sep_rooted (c c' : ascii) (o : lazybuf) :
  sep true (String.String c (String.String c' o))
  = String.String "/"%char (String.String c (String.String c' o)).
Proof. reflexivity. Qed.

Lemma rev_app_eq (s t : string) :
  String.rev_app s t = String.rev s +:+ t.
Proof.
  revert t. induction s as [|c s IH]; intros t; [reflexivity|].
  unfold String.rev. cbn [String.rev_app].
  rewrite (IH (String.String c t)), (IH (String.String c "")).
  rewrite app_assoc_str. reflexivity.
Qed.

Lemma rev_cons (c : ascii) (s : string) :
  String.rev (String.String c s) = String.rev s +:+ String.String c "".
Proof.
  unfold String.rev. cbn [String.rev_app]. rewrite rev_app_eq. reflexivity.
Qed.

Lemma rev_slash (out : lazybuf) (e : string) :
  String.rev (String.String "/"%char out) +:+ e
  = String.rev out +:+ String.String "/"%char e.
Proof. rewrite (rev_cons "/"), app_assoc_str. reflexivity. Qed.

Lemma stack_length (rooted : bool) (out : lazybuf) (dotdot : nat) (n : Z) :
  stack rooted out dotdot n -> (dotdot <= String.length out)%nat.
Proof.
  induction 1 as [| |out n _ _|rooted out dotdot n e _ IH _];
    [simpl; lia..|].
  rewrite rev_app_length. pose proof (sep_length rooted out). lia.
Qed.

Lemma rev_app_plain_length (e : string) (t : lazybuf) :
  plain_element e = true ->
  (String.length t < String.length (String.rev_app e t))%nat.
Proof.
  intros (He & _)%plain_element_inv. rewrite rev_app_length.
  destruct e; [congruence|]. simpl. lia.
Qed.

(** Only the empty relative buffer is empty. *)
Lemma stack_nil (rooted : bool) (out : lazybuf) (dotdot : nat) (n : Z) :
  stack rooted out dotdot n -> out = "" -> rooted = false /\ n = 0%Z.
Proof.
  destruct 1 as [| |out n _|rooted out dotdot n e _ He]; intros Ho;
    [split; reflexivity|discriminate..|].
  pose proof (rev_app_plain_length e (sep rooted out) He) as Hl.
  rewrite Ho in Hl. simpl in Hl. lia.
Qed.

(** A rooted buffer keeps [dotdot] at the root slash, and is the root
    slash alone when it has one byte. *)
Lemma stack_rooted (out : lazybuf) (dotdot : nat) (n : Z) :
  stack true out dotdot n ->
  dotdot = 1%nat
  /\ (1 <= String.length out)%nat
  /\ (String.length out = 1%nat -> out = "/" /\ n = 0%Z).
Proof.
  remember true as rooted eqn:Hrooted. intros Hst. revert Hrooted.
  induction Hst as [| |out n _ _|rooted out dotdot n e Hst IH He];
    intros Hrooted; [discriminate| |discriminate|].
  - split_and!; [reflexivity|simpl; lia|]. intros _. split; reflexivity.
  - destruct (IH Hrooted) as (Hd & Hlen & _).
    pose proof (rev_app_plain_length e (sep rooted out) He) as Hl.
    pose proof (sep_length rooted out).
    split_and!; [exact Hd|lia|lia].
Qed.

(** The path in the buffer once the separator and an element are
    written. *)
Lemma stack_rev_sep (rooted : bool) (out : lazybuf) (dotdot : nat) (n : Z)
      (e : string) :
  stack rooted out dotdot n ->
  has_slash e = false ->
  depth (String.rev (sep rooted out) +:+ e)
  = (depth (String.rev out) + step e)%Z
  /\ (out = "" \/ out = "/" -> depth (String.rev out) = 0%Z).
Proof.
  intros Hst He.
  assert (Hstep : depth e = step e).
  { unfold depth. rewrite (Split_plain e He). simpl. lia. }
  destruct rooted.
  - destruct (stack_rooted _ _ _ Hst) as (_ & Hlen & Hone).
    destruct out as [|c [|c' o]]; [simpl in Hlen; lia| |].
    + destruct (Hone eq_refl) as [[= ->] _]. rewrite sep_root.
      split; [|intros _; reflexivity].
      change (String.rev "/" +:+ e) with ("" +:+ String.String "/"%char e).
      rewrite depth_app_slash, Hstep. reflexivity.
    + rewrite sep_rooted, rev_slash, depth_app_slash, Hstep.
      split; [reflexivity|]. intros [|]; discriminate.
  - destruct out as [|c o].
    + rewrite sep_empty. split; [|intros _; reflexivity].
      change (String.rev "" +:+ e) with e. rewrite Hstep. reflexivity.
    + rewrite sep_relative, rev_slash, depth_app_slash, Hstep.
      split; [reflexivity|]. intros [|[= -> ->]]; [discriminate|].
      reflexivity.
Qed.

(** The level of a buffer is the level of the path that is in it. *)
Lemma stack_depth (rooted : bool) (out : lazybuf) (dotdot : nat) (n : Z) :
  stack rooted out dotdot n -> depth (String.rev out) = n.
Proof.
  induction 1 as [| |out n Hst IH|rooted out dotdot n e Hst IH He];
    [reflexivity..| |].
  - change (String.String "."%char (String.String "."%char (sep false out)))
      with (String.rev_app ".." (sep false out)).
    rewrite rev_rev_app.
    destruct (stack_rev_sep _ _ _ _ ".." Hst eq_refl) as [-> _].
    rewrite IH. reflexivity.
  - rewrite rev_rev_app.
    pose proof (plain_element_inv e He) as (_ & Hs & _).
    destruct (stack_rev_sep _ _ _ _ e Hst Hs) as [-> _].
    rewrite IH, (step_plain e He). reflexivity.
Qed.

(** [backtrack] looks at the byte it removed only to see whether it is a
    slash. *)
Lemma backtrack_removed (r r' : ascii) (out : lazybuf) (dotdot : nat) :
  is_slash r = false -> is_slash r' = false ->
  backtrack r out dotdot = backtrack r' out dotdot.
Proof.
  intros Hr Hr'. destruct out; simpl; [reflexivity|].
  rewrite Hr, Hr'. reflexivity.
Qed.

(** It removes a slash-free element from the top of the buffer ... *)
Lemma backtrack_element (e : string) :
  forall (T : lazybuf) (r : ascii) (dotdot : nat),
    has_slash e = false -> is_slash r = false ->
    (dotdot <= String.length T)%nat ->
    backtrack r (String.rev_app e T) dotdot = backtrack r T dotdot.
Proof.
  induction e as [|b e IH]; intros T r dotdot He Hr Hd; [reflexivity|].
  apply has_slash_cons in He as [Hb He].
  cbn [String.rev_app]. rewrite IH; [|assumption..|simpl; lia].
  cbn [backtrack].
  replace (dotdot <? String.length (String.String b T))%nat with true
    by (symmetry; apply Nat.ltb_lt; simpl; lia).
  rewrite Hr. cbn [negb andb]. by apply backtrack_removed.
Qed.

(** ... and the slash before it, if there is one. *)
Lemma backtrack_sep (rooted : bool) (out : lazybuf) (r : ascii)
      (dotdot : nat) (n : Z) :
  stack rooted out dotdot n -> is_slash r = false ->
  backtrack r (sep rooted out) dotdot = out.
Proof.
  intros Hst Hr. pose proof (stack_length _ _ _ _ Hst) as Hd.
  destruct rooted.
  - destruct (stack_rooted _ _ _ Hst) as (-> & Hlen & Hone).
    destruct out as [|c [|c' o]]; [simpl in Hlen; lia| |].
    + destruct (Hone eq_refl) as [[= ->] _]. reflexivity.
    + rewrite sep_rooted. cbn [backtrack String.length].
      rewrite Hr. cbn [Nat.ltb Nat.leb negb andb].
      rewrite ?andb_false_r. reflexivity.
  - destruct out as [|c o]; [reflexivity|].
    rewrite sep_relative. cbn [backtrack].
    replace (dotdot <? String.length
                         (String.String "/"%char (String.String c o)))%nat
      with true by (symmetry; apply Nat.ltb_lt; simpl in *; lia).
    rewrite Hr. cbn [negb andb]. rewrite andb_false_r. reflexivity.
Qed.

(** A [..] element that can backtrack takes the buffer one level up. *)
Lemma stack_backtrack (rooted : bool) (out : lazybuf) (dotdot : nat) (n : Z) :
  stack rooted out dotdot n -> (dotdot < String.length out)%nat ->
  stack rooted
        match out with
        | String.String last out' => backtrack last out' dotdot
        | EmptyString => EmptyString
        end dotdot (n - 1)%Z.
Proof.
  intros Hst.
  destruct Hst as [| |out n Hst|rooted out dotdot n e Hst He]; intros Hlt;
    [simpl in Hlt; lia.. | lia |].
  pose proof (stack_length _ _ _ _ Hst) as Hd.
  pose proof (plain_element_inv e He) as (_ & Hs & _).
  replace (n + 1 - 1)%Z with n by lia.
  assert (Hsep : (dotdot <= String.length (sep rooted out))%nat)
    by (pose proof (sep_length rooted out); lia).
  pose proof (backtrack_element e (sep rooted out) "a"%char dotdot Hs eq_refl
                Hsep) as HB.
  rewrite (backtrack_sep rooted out "a"%char dotdot n Hst eq_refl) in HB.
  destruct (String.rev_app e (sep rooted out)) as [|last out'];
    [simpl in Hlt; lia|].
  cbn [backtrack] in HB.
  replace (dotdot <? String.length (String.String last out'))%nat with true
    in HB by (symmetry; by apply Nat.ltb_lt).
  change (backtrack last out' dotdot = out) in HB. rewrite HB. exact Hst.
Qed.

(** The copy loop takes the bytes up to the next slash. *)
Lemma copy_element_split (rest : string) :
  forall out : lazybuf,
    exists e rest' : string,
      rest = e +:+ rest'
      /\ has_slash e = false
      /\ at_end_or_slash rest' = true
      /\ copy_element rest out = (rest', String.rev_app e out).
Proof.
  induction rest as [|c rest IH]; intros out.
  - exists "", "". split_and!; reflexivity.
  - simpl. destruct (is_slash c) eqn:Hc.
    + exists "", (String.String c rest). split_and!; try reflexivity.
      simpl. exact Hc.
    + destruct (IH (String.String c out)) as (e & rest' & -> & He & Hr & Hcopy).
      exists (String.String c e), rest'. split_and!.
      * reflexivity.
      * simpl. rewrite Hc, He. reflexivity.
      * exact Hr.
      * rewrite Hcopy. reflexivity.
Qed.

(** The loop invariant.  For a relative path the level of the buffer and
    the level of the unread rest add up to the level of the path; for a
    rooted path the buffer may end lower, because a [..] at the root is
    dropped. *)
Lemma clean_loop_depth (rooted : bool) (fuel : nat) :
  forall (rest : string) (out : lazybuf) (dotdot : nat) (n : Z),
    (String.length rest <= fuel)%nat ->
    stack rooted out dotdot n ->
    exists (dotdot' : nat) (n' : Z),
      stack rooted (clean_loop fuel rooted rest out dotdot) dotdot' n'
      /\ (n + depth rest <= n')%Z
      /\ (rooted = false -> n' = (n + depth rest)%Z).
Proof.
  induction fuel as [|fuel IH]; intros rest out dotdot n Hlen Hst.
  { destruct rest; [|simpl in Hlen; lia]. exists dotdot, n. simpl.
    rewrite depth_empty. split_and!; [exact Hst|lia|intros _; lia]. }
  destruct rest as [|c rest1].
  { exists dotdot, n. simpl. rewrite depth_empty.
    split_and!; [exact Hst|lia|intros _; lia]. }
  simpl in Hlen. cbn [clean_loop].
  destruct (is_slash c) eqn:Hc.
  { apply is_slash_true in Hc as ->. rewrite depth_slash.
    apply IH; [lia | exact Hst]. }
  destruct (is_dot c && at_end_or_slash rest1) eqn:Hdot.
  { apply andb_true_iff in Hdot as [->%is_dot_true Hr].
    change (String.String "."%char rest1) with ("." +:+ rest1).
    rewrite depth_element by (reflexivity || exact Hr).
    change (step ".") with 0%Z. rewrite Z.add_0_l.
    apply IH; [lia | exact Hst]. }
  destruct (is_dot c && match rest1 with
                        | String.String c1 rest2 =>
                            is_dot c1 && at_end_or_slash rest2
                        | EmptyString => false
                        end) eqn:Hdd.
  { apply andb_true_iff in Hdd as [->%is_dot_true Hdd].
    destruct rest1 as [|c1 rest2]; [discriminate|].
    apply andb_true_iff in Hdd as [->%is_dot_true Hr].
    cbv zeta. simpl in Hlen.
    change (String.String "."%char (String.String "."%char rest2))
      with (".." +:+ rest2).
    rewrite depth_element by (reflexivity || exact Hr).
    change (step "..") with (-1)%Z.
    replace (n + (-1 + depth rest2))%Z with ((n - 1) + depth rest2)%Z by lia.
    destruct (dotdot <? String.length out)%nat eqn:Hlt.
    - apply Nat.ltb_lt in Hlt.
      pose proof (stack_backtrack _ _ _ _ Hst Hlt) as Hst'.
      destruct out as [|last out']; [simpl in Hlt; lia|].
      apply IH; [lia | exact Hst'].
    - apply Nat.ltb_ge in Hlt. pose proof (stack_length _ _ _ _ Hst) as Hle.
      assert (dotdot = String.length out) as -> by lia.
      destruct rooted; cbn [negb].
      + destruct (IH rest2 out (String.length out) n ltac:(lia) Hst)
          as (dotdot' & n' & Hst' & Hn & _).
        exists dotdot', n'. split_and!; [exact Hst'|lia|discriminate].
      + rewrite sep_dotdot.
        apply IH; [lia | by apply stack_dotdot]. }
  cbv zeta.
  change (if (rooted && negb (String.length out =? 1)%nat)
             || (negb rooted && negb (String.length out =? 0)%nat)
          then String.String "/"%char out else out) with (sep rooted out).
  destruct (copy_element_split (String.String c rest1) (sep rooted out))
    as (e & rest' & Heq & He & Hr & Hcopy).
  rewrite Hcopy, Heq.
  assert (Hplain : plain_element e = true).
  { unfold plain_element. rewrite He. cbn [negb andb].
    rewrite andb_true_r, !andb_true_iff, !negb_true_iff.
    split_and!; apply String.eqb_neq; intros ->.
    - rewrite app_empty_l in Heq. subst rest'. simpl in Hr. congruence.
    - change ("." +:+ rest') with (String.String "."%char rest') in Heq.
      injection Heq as -> ->. rewrite Hr in Hdot. discriminate.
    - change (".." +:+ rest')
        with (String.String "."%char (String.String "."%char rest')) in Heq.
      injection Heq as -> ->.
      change (is_dot ".") with true in Hdd. rewrite Hr in Hdd. discriminate. }
  rewrite depth_element, (step_plain e Hplain) by assumption.
  replace (n + (1 + depth rest'))%Z with ((n + 1) + depth rest')%Z by lia.
  apply IH; [|by apply stack_element].
  apply (f_equal String.length) in Heq. rewrite length_app_str in Heq.
  apply plain_element_inv in Hplain as (Hne & _).
  destruct e; [congruence|]. simpl in Heq. lia.
Qed.

Example depth_table :
  depth "caddy" = 1%Z /\ depth "caddy/" = 1%Z /\ depth "/caddy" = 1%Z
  /\ depth "certs/prod" = 2%Z /\ depth "." = 0%Z /\ depth "a/.." = 0%Z
  /\ depth ".." = (-1)%Z /\ depth "../../a" = (-1)%Z.
Proof. repeat split. Qed.

Lemma relative_cons (c : ascii) (s : string) :
  relative (String.String c s) = negb (is_slash c).
Proof.
  unfold relative, gostrings.HasPrefix, is_slash.
  destruct s; cbn; destruct (Ascii.eqb c "/"); reflexivity.
Qed.

(** [Clean] ends no higher than the path, and on the very level of the
    path when it is relative. *)
Lemma Clean_depth_both (p : string) :
  (depth p <= depth (Clean p))%Z
  /\ (relative p = true -> depth (Clean p) = depth p).
Proof.
  destruct p as [|c rest1]; [split; [reflexivity|intros _; reflexivity]|].
  rewrite relative_cons, negb_true_iff.
  unfold Clean. cbv zeta. destruct (is_slash c) eqn:Hc.
  - apply is_slash_true in Hc as ->. rewrite depth_slash.
    destruct (clean_loop_depth true (String.length (String.String "/"%char rest1))
                rest1 "/" 1 0%Z ltac:(simpl; lia) stack_root)
      as (dotdot' & n' & Hst & Hn & _).
    destruct (clean_loop _ _ _ _ _) as [|x out] eqn:E.
    + destruct (stack_nil _ _ _ _ Hst eq_refl) as [? _]. discriminate.
    + cbn [String.length Nat.eqb]. rewrite (stack_depth _ _ _ _ Hst).
      split; [lia|discriminate].
  - destruct (clean_loop_depth false (String.length (String.String c rest1))
                (String.String c rest1) "" 0 0%Z (le_n _) stack_empty)
      as (dotdot' & n' & Hst & _ & Hn).
    specialize (Hn eq_refl). rewrite Z.add_0_l in Hn. subst n'.
    destruct (clean_loop _ _ _ _ _) as [|x out] eqn:E.
    + destruct (stack_nil _ _ _ _ Hst eq_refl) as [_ ->].
      split; [reflexivity|intros _; reflexivity].
    + cbn [String.length Nat.eqb]. rewrite (stack_depth _ _ _ _ Hst).
      split; [reflexivity|intros _; reflexivity].
Qed.

Lemma Clean_depth (p : string) :
  relative p = true -> depth (Clean p) = depth p.
Proof. apply Clean_depth_both. Qed.

Lemma Clean_depth_le (p : string) : (depth p <= depth (Clean p))%Z.
Proof. apply Clean_depth_both. Qed.

(** The resolved path ends as many levels below the key as the prefix
    goes down, or lower. *)
Lemma Join_depth_le (p k : string) :
  p <> "" -> (depth p + depth k <= depth (Join [p; k]))%Z.
Proof.
  intros Hp. rewrite Join_two by exact Hp.
  change ("/" +:+ k) with (String.String "/"%char k).
  rewrite <- depth_app_slash. apply Clean_depth_le.
Qed.

Lemma Join_depth (p k : string) :
  p <> "" -> relative p = true ->
  depth (Join [p; k]) = (depth p + depth k)%Z.
Proof.
  intros Hp Hrel. rewrite Join_two by exact Hp.
  rewrite Clean_depth.
  - change ("/" +:+ k) with (String.String "/"%char k).
    apply depth_app_slash.
  - destruct p as [|c p]; [congruence|].
    rewrite app_cons, relative_cons. rewrite relative_cons in Hrel.
    exact Hrel.
Qed.

(** A prefix that goes down moves every key. *)
Lemma Join_differs_down (p k : string) :
  (0 < depth p)%Z -> Join [p; k] <> k.
Proof.
  intros Hd Heq.
  assert (Hp : p <> "") by (intros ->; rewrite depth_empty in Hd; lia).
  pose proof (Join_depth_le p k Hp) as Hle. rewrite Heq in Hle. lia.
Qed.

(** So does a relative prefix that goes up. *)
Lemma Join_differs (p k : string) :
  relative p = true -> depth p <> 0%Z -> Join [p; k] <> k.
Proof.
  intros Hrel Hd Heq. apply (f_equal depth) in Heq.
  rewrite Join_depth in Heq; [lia| |exact Hrel].
  intros ->. apply Hd. reflexivity.
Qed.

(** A clean relative path goes down as many levels as it has elements. *)
Lemma clean_relative_depth (p : string) :
  clean_relative p = true -> relative p = true /\ (0 < depth p)%Z.
Proof.
  intros Hp. split.
  - destruct p as [|c p]; [discriminate|].
    rewrite relative_cons. unfold clean_relative in Hp. simpl in Hp.
    destruct (is_slash c); [discriminate|reflexivity].
  - unfold clean_relative in Hp. unfold depth.
    pose proof (Split_nonempty p) as Hne.
    assert (G : forall l, forallb plain_element l = true ->
                foldr (fun e n => (step e + n)%Z) 0%Z l
                = Z.of_nat (length l)).
    { induction l as [|e l IHl]; [reflexivity|].
      simpl. intros [He Hl]%andb_true_iff.
      rewrite (step_plain e He), (IHl Hl). lia. }
    rewrite (G _ Hp). destruct (Split p); [congruence|]. simpl. lia.
Qed.

End clean_levels.

Import azblob certmagic certmagic_azure.

(* ===================================================================== *)
(** ** Namespace mapper: [KeyPrefix] and [CutKeyPrefix] *)
(* ===================================================================== *)

Section namespace.
Import keys.

Lemma CutPrefix_app (p s : string) :
  gostrings.CutPrefix (p +:+ s) p = (s, true).
Proof.
  unfold gostrings.CutPrefix, gostrings.HasPrefix.
  rewrite substring_app_head, String.eqb_refl, length_app_str.
  replace (String.length p <=? String.length p + String.length s)%nat
    with true by (symmetry; apply Nat.leb_le; lia).
  cbn [andb negb].
  replace (String.length p + String.length s - String.length p)%nat
    with (String.length s) by lia.
  rewrite substring_app_tail. reflexivity.
Qed.

(** With a clean prefix, the resolved path of a clean key is
    [Prefix/key]. *)
Lemma KeyPrefix_clean (az : AzureBlob) (key : string) :
  clean_relative (Prefix az) = true -> clean_relative key = true ->
  KeyPrefix az key = Prefix az +:+ "/" +:+ key.
Proof. apply Join_clean_relative. Qed.

Lemma KeyPrefix_no_prefix (az : AzureBlob) (key : string) :
  Prefix az = "" -> clean_relative key = true -> KeyPrefix az key = key.
Proof. unfold KeyPrefix. intros ->. apply Join_empty_prefix. Qed.

(** Without a prefix the two mappings are inverse on clean keys. *)
Lemma CutKeyPrefix_KeyPrefix_no_prefix (az : AzureBlob) (key : string) :
  Prefix az = "" -> clean_relative key = true ->
  CutKeyPrefix az (KeyPrefix az key) = key.
Proof.
  intros Hp Hk. rewrite KeyPrefix_no_prefix by assumption.
  unfold CutKeyPrefix. rewrite Hp.
  change key with ("" +:+ key) at 1. rewrite CutPrefix_app. reflexivity.
Qed.

(** With a clean prefix [CutKeyPrefix] takes the prefix off and leaves
    the separator that [KeyPrefix] put in. *)
Lemma CutKeyPrefix_KeyPrefix_clean (az : AzureBlob) (key : string) :
  clean_relative (Prefix az) = true -> clean_relative key = true ->
  CutKeyPrefix az (KeyPrefix az key) = "/" +:+ key.
Proof.
  intros Hp Hk. rewrite KeyPrefix_clean by assumption.
  unfold CutKeyPrefix. rewrite CutPrefix_app. reflexivity.
Qed.

End namespace.

(** C3, on the code: with the prefix [caddy], prefixing the key
    [certificates/example.com.crt] and stripping the prefix again gives
    [/certificates/example.com.crt], with a leading slash, and not the key
    itself. *)
Theorem CutKeyPrefix_KeyPrefix_leading_slash :
  KeyPrefix sample.az sample.key = "caddy/certificates/example.com.crt"
  /\ CutKeyPrefix sample.az (KeyPrefix sample.az sample.key)
     = "/certificates/example.com.crt"
  /\ CutKeyPrefix sample.az (KeyPrefix sample.az sample.key) <> sample.key.
Proof. repeat split. discriminate. Qed.

(* ===================================================================== *)
(** ** Lock and Unlock *)
(* ===================================================================== *)

(** C1, as amended: for every key, [Lock] returns success at once and
    leaves the backend as it was, without creating a lock object; a second
    [Lock] for the same key succeeds as well.  [Unlock] is likewise a
    no-op. *)
Theorem Lock_Unlock_noop (az : AzureBlob) (key : string) (w : World) :
  Lock az key w = (None, w)
  /\ (exists w1 w2 : World, Lock az key w = (None, w1) /\ Lock az key w1 = (None, w2))
  /\ Unlock az key w = (None, w).
Proof.
  split; [reflexivity|]. split; [|reflexivity].
  exists w, w. split; reflexivity.
Qed.

(** C1, as stated, fails: on an empty account [Lock] succeeds for a key
    without creating any object, and a second [Lock] for that key succeeds
    too. *)
Lemma Lock_not_exclusive :
  ~ contract.Lock_exclusive sample.az sample.key sample.empty.
Proof.
  intros H. destruct (H sample.empty eq_refl) as [_ Hsecond].
  exact (Hsecond sample.empty eq_refl).
Qed.

(* ===================================================================== *)
(** ** List *)
(* ===================================================================== *)

(** C8: [List] ignores the [recursive] flag. *)
Theorem List_recursive_ignored (az : AzureBlob) (prefix : string) (w : World) :
  List az prefix true w = List az prefix false w.
Proof. reflexivity. Qed.

(* ===================================================================== *)
(** ** String *)
(* ===================================================================== *)

(** C9: the string representation contains the account name, the
    container and the prefix, and is the same for any two configurations
    that differ only in the account key. *)
Theorem String_hides_AccountKey
        (name key key' container prefix : string) (c c' : azblob.Client) :
  let az := MkAzureBlob name key container prefix c in
  keys.contains (String az) name
  /\ keys.contains (String az) container
  /\ keys.contains (String az) prefix
  /\ String az = String (MkAzureBlob name key' container prefix c').
Proof.
  cbn zeta. unfold String, keys.contains. cbn [AccountName Container Prefix].
  repeat split.
  - exists "Azure Blob Storage Account: ",
      (", Container: " +:+ container +:+ ", Prefix: " +:+ prefix).
    reflexivity.
  - exists ("Azure Blob Storage Account: " +:+ name +:+ ", Container: "),
      (", Prefix: " +:+ prefix).
    rewrite !app_assoc_str. reflexivity.
  - exists ("Azure Blob Storage Account: " +:+ name +:+ ", Container: "
            +:+ container +:+ ", Prefix: "), "".
    rewrite !app_assoc_str, app_empty_r. reflexivity.
Qed.

(* ===================================================================== *)
(** ** Exists *)
(* ===================================================================== *)

Section exists_facts.

(** [Exists] probes the key it is given, as it is. *)
Lemma Exists_true (az : AzureBlob) (key : string) (w : World) :
  (Exists az key w).1 = true ->
  is_Some (blobs w !! (Container az, key)).
Proof.
  destruct w as [bl t fl].
  unfold Exists, NewSharedKeyCredential, NewClientWithSharedKeyCredential,
    GetProperties, call, bind, next_fault, ret.
  destruct fl as [|[c0|] [|[c1|] [|[c2|] fs]]]; cbn;
    try discriminate;
    (destruct (bl !! (Container az, key)) as [b|]; cbn;
     [intros _; by exists b | discriminate]).
Qed.

Lemma Exists_absent (az : AzureBlob) (key : string) (w : World) :
  blobs w !! (Container az, key) = None -> (Exists az key w).1 = false.
Proof.
  intros Hnone. destruct (Exists az key w).1 eqn:HE; [|reflexivity].
  apply Exists_true in HE as [b Hb]. congruence.
Qed.

End exists_facts.

(** C6: [Exists] returns a boolean and nothing else; when the credential
    construction, the client construction or the properties request fails,
    the boolean is [false]. *)
Theorem Exists_collapses_failures (az : AzureBlob) (key : string) (w : World) :
  forall (i : nat) (code : string),
    (i < 3)%nat -> faults w !! i = Some (Some code) ->
    (Exists az key w).1 = false.
Proof.
  intros i code Hi Hfault. destruct w as [bl t fl].
  unfold Exists, NewSharedKeyCredential, NewClientWithSharedKeyCredential,
    GetProperties, call, bind, next_fault, ret.
  destruct fl as [|[c0|] [|[c1|] [|[c2|] fs]]]; cbn;
    try reflexivity;
    destruct i as [|[|[|i]]]; cbn in Hfault; try discriminate; lia.
Qed.

Lemma Exists_collapses_failures_witness :
  (Exists sample.az sample.key sample.empty_failing).1 = false.
Proof.
  apply (Exists_collapses_failures sample.az sample.key sample.empty_failing
           1 "AuthenticationFailed"); [lia | reflexivity].
Defined.

(* ===================================================================== *)
(** ** SDK calls *)
(* ===================================================================== *)

Section sdk_facts.

Lemma call_fails {A : Type} (run : Remote (result A)) (w : World)
      (code : string) :
  pending_fault w = Some code ->
  call run w = (Err (ResponseError code), advance w).
Proof. unfold call, bind, next_fault, ret. intros ->. reflexivity. Qed.

Lemma call_runs {A : Type} (run : Remote (result A)) (w : World) :
  pending_fault w = None -> call run w = run (advance w).
Proof. unfold call, bind, next_fault. intros ->. reflexivity. Qed.

Lemma GetProperties_present (c : azblob.Client) (container name : string)
      (w : World) (b : Blob) :
  pending_fault w = None -> blobs w !! (container, name) = Some b ->
  GetProperties c container name w
  = (Ok (MkProperties (BlobLastModified b) (Z.of_nat (length (Body b)))),
     advance w).
Proof.
  intros Hf Hb. unfold GetProperties. rewrite call_runs by assumption.
  cbn [advance blobs]. rewrite Hb. reflexivity.
Qed.

Lemma GetProperties_absent (c : azblob.Client) (container name : string)
      (w : World) :
  blobs w !! (container, name) = None ->
  exists e : error, GetProperties c container name w = (Err e, advance w).
Proof.
  intros Hb. unfold GetProperties.
  destruct (pending_fault w) as [code|] eqn:Hf.
  - rewrite (call_fails _ _ code) by assumption. eauto.
  - rewrite call_runs by assumption. cbn [advance blobs]. rewrite Hb. eauto.
Qed.

Lemma GetProperties_Ok (c : azblob.Client) (container name : string)
      (w w' : World) (props : Properties) :
  GetProperties c container name w = (Ok props, w') ->
  pending_fault w = None /\ w' = advance w
  /\ exists b : Blob,
      blobs w !! (container, name) = Some b
      /\ props = MkProperties (BlobLastModified b) (Z.of_nat (length (Body b))).
Proof.
  unfold GetProperties.
  destruct (pending_fault w) as [code|] eqn:Hf.
  - rewrite (call_fails _ _ code) by assumption. discriminate.
  - rewrite call_runs by assumption. cbn [advance blobs].
    destruct (blobs w !! (container, name)) as [b|]; [|discriminate].
    intros [= <- <-]. eauto.
Qed.

Lemma UploadBuffer_Ok (c : azblob.Client) (container name : string)
      (buffer : list Byte.byte) (w w' : World) :
  UploadBuffer c container name buffer w = (Ok tt, w') ->
  blobs w' = <[(container, name) := MkBlob buffer (now w)]> (blobs w).
Proof.
  unfold UploadBuffer.
  destruct (pending_fault w) as [code|] eqn:Hf.
  - rewrite (call_fails _ _ code) by assumption. discriminate.
  - rewrite call_runs by assumption. intros [= <-]. reflexivity.
Qed.

End sdk_facts.

(* ===================================================================== *)
(** ** Stat *)
(* ===================================================================== *)

Section stat_facts.
Import keys.

Lemma Stat_Ok (az : AzureBlob) (key : string) (w w' : World)
      (props : Properties) :
  GetProperties (Client az) (Container az) (KeyPrefix az key) w
  = (Ok props, w') ->
  Stat az key w
  = (MkKeyInfo (KeyPrefix az key) (LastModified props) (ContentLength props)
               (gostrings.HasSuffix (KeyPrefix az key) "/"),
     None, w').
Proof. intros H. unfold Stat, bind. rewrite H. reflexivity. Qed.

Lemma Stat_Err (az : AzureBlob) (key : string) (w w' : World) (e : error) :
  GetProperties (Client az) (Container az) (KeyPrefix az key) w
  = (Err e, w') ->
  Stat az key w = (KeyInfo_zero, None, w').
Proof. intros H. unfold Stat, bind. rewrite H. reflexivity. Qed.

Lemma HasSuffix_slash_element (e : string) :
  e <> "" -> has_slash e = false -> gostrings.HasSuffix e "/" = false.
Proof.
  induction e as [|c e IH]; intros Hne Hsl; [congruence|].
  apply has_slash_cons in Hsl as [Hc Hsl].
  destruct e as [|d e].
  - unfold gostrings.HasSuffix. cbn.
    unfold gopath.is_slash in Hc. rewrite Hc. reflexivity.
  - rewrite HasSuffix_slash_cons by discriminate. apply IH; [discriminate|assumption].
Qed.

(** A clean relative path does not end in a slash. *)
Lemma HasSuffix_slash_elements (es : list string) :
  forall e : string,
    plain_element e = true -> forallb plain_element es = true ->
    gostrings.HasSuffix (e +:+ slashed es) "/" = false.
Proof.
  induction es as [|e' es IH]; intros e He Hes.
  - simpl. rewrite app_empty_r.
    apply plain_element_inv in He as (Hne & Hsl & _).
    by apply HasSuffix_slash_element.
  - simpl in Hes. apply andb_true_iff in Hes as [He' Hes].
    cbn [slashed].
    change (String.String "/"%char (e' +:+ slashed es))
      with ("/" +:+ (e' +:+ slashed es)).
    rewrite <- app_assoc_str, HasSuffix_slash_app; [by apply IH|].
    apply plain_element_inv in He' as (Hne & _).
    destruct e'; [congruence | discriminate].
Qed.

Lemma HasSuffix_slash_clean (p : string) :
  clean_relative p = true -> gostrings.HasSuffix p "/" = false.
Proof.
  intros (e & es & -> & He & Hes)%clean_relative_elements.
  by apply HasSuffix_slash_elements.
Qed.

Lemma clean_relative_join (p k : string) :
  clean_relative p = true -> clean_relative k = true ->
  gostrings.HasSuffix (p +:+ "/" +:+ k) "/" = false.
Proof.
  intros Hp Hk. rewrite <- app_assoc_str.
  rewrite HasSuffix_slash_app by (by apply clean_relative_nonempty).
  by apply HasSuffix_slash_clean.
Qed.

Lemma Stat_IsTerminal_no_prefix (az : AzureBlob) (key : string) (w : World) :
  Prefix az = "" -> clean_relative key = true ->
  IsTerminal (Stat az key w).1.1 = false.
Proof.
  intros Hp Hk. unfold Stat, bind.
  destruct (GetProperties _ _ _ w) as [[props|e] w']; cbn; [|reflexivity].
  rewrite KeyPrefix_no_prefix by assumption. by apply HasSuffix_slash_clean.
Qed.

(** Under a clean prefix, [Stat] reports every clean key as not
    terminal, found or not. *)
Lemma Stat_IsTerminal_clean (az : AzureBlob) (key : string) (w : World) :
  clean_relative (Prefix az) = true -> clean_relative key = true ->
  IsTerminal (Stat az key w).1.1 = false.
Proof.
  intros Hp Hk. unfold Stat, bind.
  destruct (GetProperties _ _ _ w) as [[props|e] w']; cbn; [|reflexivity].
  rewrite KeyPrefix_clean by assumption. by apply clean_relative_join.
Qed.

(** Whatever the prefix and the key, [Stat] reports [IsTerminal = true]
    only when the resolved path is the root [/]. *)
Lemma Stat_IsTerminal_only_root (az : AzureBlob) (key : string) (w : World) :
  IsTerminal (Stat az key w).1.1 = true -> KeyPrefix az key = "/".
Proof.
  unfold Stat, bind.
  destruct (GetProperties _ _ _ w) as [[props|e] w']; cbn; [|discriminate].
  apply Join_trailing_slash.
Qed.

End stat_facts.

(** C5, on the code: the key [certificates/example.com.crt] exists and
    does not end in a slash, and [Stat] reports [IsTerminal = false] for
    it, where the contract asks for [true]. *)
Theorem Stat_IsTerminal_false_on_stored_key :
  gostrings.HasSuffix sample.key "/" = false
  /\ Stat sample.az sample.key sample.stored
     = (MkKeyInfo "caddy/certificates/example.com.crt" 1000%Z 7%Z false,
        None, sample.stored).
Proof. split; vm_compute; reflexivity. Qed.

(** C7: when the metadata fetch fails, [Stat] returns the zero [KeyInfo]
    and a nil error; when the blob is there and the request goes through,
    it returns the blob's modification time and size, again with a nil
    error. *)
Theorem Stat_swallows_failure (az : AzureBlob) (key : string) (w : World) :
  (forall (e : error) (w' : World),
      GetProperties (Client az) (Container az) (KeyPrefix az key) w = (Err e, w') ->
      Stat az key w = (KeyInfo_zero, None, w'))
  /\ (forall b : Blob,
         pending_fault w = None ->
         blobs w !! (Container az, KeyPrefix az key) = Some b ->
         exists ki : KeyInfo,
           Stat az key w = (ki, None, advance w)
           /\ Modified ki = BlobLastModified b
           /\ Size ki = Z.of_nat (length (Body b))).
Proof.
  split.
  - intros e w'. apply Stat_Err.
  - intros b Hf Hb.
    pose proof (GetProperties_present (Client az) _ _ w b Hf Hb) as HG.
    rewrite (Stat_Ok _ _ _ _ _ HG). eexists. split; [reflexivity|].
    split; reflexivity.
Qed.

Lemma Stat_swallows_failure_witness :
  Stat sample.az sample.key sample.stored_failing
  = (KeyInfo_zero, None, advance sample.stored_failing)
  /\ exists ki : KeyInfo,
      Stat sample.az sample.key sample.stored = (ki, None, advance sample.stored)
      /\ Modified ki = 1000%Z
      /\ Size ki = 7%Z.
Proof.
  split.
  - apply (proj1 (Stat_swallows_failure sample.az sample.key sample.stored_failing)
             (ResponseError "AuthenticationFailed")).
    vm_compute. reflexivity.
  - apply (proj2 (Stat_swallows_failure sample.az sample.key sample.stored)
             (MkBlob sample.payload 1000%Z)).
    + reflexivity.
    + vm_compute. reflexivity.
Defined.

(** C10, as amended: when [Stat] succeeds, the [Key] field is the
    resolved backend path [path.Join(Prefix, key)], whatever the key.  It
    differs from the logical key whenever the prefix has more ordinary
    elements than [..] elements, as every clean relative prefix has, and
    whenever it has fewer and does not begin with a slash. *)
Theorem Stat_Key_is_resolved_path (az : AzureBlob) (key : string) (w : World) :
  contract.Stat_succeeds az key w ->
  Key (Stat az key w).1.1 = KeyPrefix az key
  /\ ((0 < levels.depth (Prefix az))%Z -> Key (Stat az key w).1.1 <> key)
  /\ (levels.relative (Prefix az) = true ->
      (levels.depth (Prefix az) < 0)%Z ->
      Key (Stat az key w).1.1 <> key)
  /\ (keys.clean_relative (Prefix az) = true ->
      (0 < levels.depth (Prefix az))%Z /\ Key (Stat az key w).1.1 <> key).
Proof.
  intros (props & w' & HG). rewrite (Stat_Ok _ _ _ _ _ HG). cbn.
  split; [reflexivity|]. unfold KeyPrefix. split_and!.
  - intros Hd. by apply Join_differs_down.
  - intros Hrel Hd. apply Join_differs; [exact Hrel | lia].
  - intros Hp. destruct (clean_relative_depth _ Hp) as [_ Hd].
    split; [exact Hd | by apply Join_differs_down].
Qed.

Lemma Stat_Key_is_resolved_path_witness :
  (Key (Stat sample.az sample.key sample.stored).1.1
   = KeyPrefix sample.az sample.key
   /\ Key (Stat sample.az sample.key sample.stored).1.1 <> sample.key)
  /\ (Key (Stat sample.az "/certificates/example.com.crt" sample.stored).1.1
      = KeyPrefix sample.az "/certificates/example.com.crt"
      /\ Key (Stat sample.az "/certificates/example.com.crt" sample.stored).1.1
         <> "/certificates/example.com.crt").
Proof.
  split.
  - destruct (Stat_Key_is_resolved_path sample.az sample.key sample.stored)
      as (Hresolved & Hdiffers & _).
    + exists (MkProperties 1000%Z 7%Z), sample.stored. vm_compute. reflexivity.
    + split; [exact Hresolved|]. apply Hdiffers. reflexivity.
  - destruct (Stat_Key_is_resolved_path sample.az
                "/certificates/example.com.crt" sample.stored)
      as (Hresolved & _ & _ & Hclean).
    + exists (MkProperties 1000%Z 7%Z), sample.stored. vm_compute. reflexivity.
    + split; [exact Hresolved|]. apply Hclean. reflexivity.
Defined.

(** C10, as stated, fails: with the prefix [.] the resolved path of
    [certificates/example.com.crt] is the key itself, so [Stat] succeeds
    under a non-empty prefix and returns the logical key in [Key]. *)
Lemma Stat_Key_dot_prefix :
  ~ contract.Stat_Key_resolved sample.az_dot sample.key sample.bare.
Proof.
  intros H.
  assert (Hs : contract.Stat_succeeds sample.az_dot sample.key sample.bare).
  { exists (MkProperties 1000%Z 7%Z), sample.bare. vm_compute. reflexivity. }
  destruct (H Hs) as [_ Hne].
  apply Hne; [discriminate | vm_compute; reflexivity].
Qed.

(* ===================================================================== *)
(** ** Store and Load *)
(* ===================================================================== *)

Section store_load_facts.
Import keys.

Lemma Store_Ok (az : AzureBlob) (key : string) (value : list Byte.byte)
      (w w' : World) :
  Store az key value w = (None, w') ->
  blobs w' = <[(Container az, KeyPrefix az key) := MkBlob value (now w)]> (blobs w).
Proof.
  unfold Store, bind.
  destruct (UploadBuffer _ _ _ _ w) as [[[]|e] w1] eqn:HU; cbn; [|discriminate].
  intros [= <-]. by eapply UploadBuffer_Ok.
Qed.

(** Under a clean prefix a stored key stays invisible to [Exists],
    which looks under the bare key. *)
Lemma Store_then_Exists_clean (az : AzureBlob) (key : string)
      (value : list Byte.byte) (w w' : World) :
  clean_relative (Prefix az) = true -> clean_relative key = true ->
  blobs w !! (Container az, key) = None ->
  Store az key value w = (None, w') ->
  is_Some (blobs w' !! (Container az, KeyPrefix az key))
  /\ (Exists az key w').1 = false.
Proof.
  intros Hp Hk Hnone HS. apply Store_Ok in HS. split.
  - rewrite HS, lookup_insert_eq. eauto.
  - apply Exists_absent. rewrite HS, lookup_insert_ne; [assumption|].
    rewrite KeyPrefix_clean by assumption. intros [= Heq].
    apply (f_equal String.length) in Heq.
    rewrite !length_app_str in Heq. simpl in Heq. lia.
Qed.

(** X21: without a prefix a stored clean key is found again: after a
    successful [Store], [Exists] answers [true] and [Load] returns exactly
    the stored bytes, when no SDK call fails. *)
Lemma Store_then_Load_no_prefix (az : AzureBlob) (key : string)
      (value : list Byte.byte) (w w' : World) :
  Prefix az = "" -> clean_relative key = true ->
  Store az key value w = (None, w') -> faults w' = [] ->
  (Exists az key w').1 = true /\ (Load az key w').1 = (value, None).
Proof.
  intros Hp Hk HS Hf. apply Store_Ok in HS.
  rewrite KeyPrefix_no_prefix in HS by assumption.
  assert (Hb : blobs w' !! (Container az, key) = Some (MkBlob value (now w)))
    by (rewrite HS; apply lookup_insert_eq).
  destruct w' as [bl t fl]. cbn in Hf, Hb. subst fl.
  unfold Load, Exists, NewSharedKeyCredential, NewClientWithSharedKeyCredential,
    GetProperties, DownloadStream, ReadAll, call, bind, next_fault, ret.
  cbn. rewrite Hb. cbn.
  rewrite KeyPrefix_no_prefix by assumption. rewrite Hb. split; reflexivity.
Qed.

(** [Load] answers [fs.ErrNotExist] exactly when the probe under the
    bare key fails. *)
Lemma Load_ErrNotExist_iff (az : AzureBlob) (key : string) (w : World) :
  (Load az key w).1.2 = Some ErrNotExist <-> (Exists az key w).1 = false.
Proof.
  unfold Load, bind. destruct (Exists az key w) as [found w1]. cbn [fst].
  destruct found; cbn [negb]; [|by split].
  split; [|discriminate].
  unfold DownloadStream, ReadAll, call, bind, next_fault, ret.
  destruct (pending_fault w1); cbn; [discriminate|].
  destruct (blobs w1 !! _); cbn; [|discriminate].
  destruct (pending_fault _); cbn; discriminate.
Qed.

End store_load_facts.

(** C2, on the code: [Store] writes the key under the prefix, at
    [caddy/certificates/example.com.crt]; [Exists] then looks under the bare
    key and answers [false], and [Load] answers [fs.ErrNotExist]. *)
Theorem Store_then_Exists_misses_key :
  Store sample.az sample.key sample.payload sample.empty = (None, sample.stored)
  /\ blobs sample.stored !! ("tls", "caddy/certificates/example.com.crt")
     = Some (MkBlob sample.payload 1000%Z)
  /\ Exists sample.az sample.key sample.stored = (false, sample.stored)
  /\ Load sample.az sample.key sample.stored
     = ([], Some ErrNotExist, sample.stored).
Proof. repeat split; vm_compute; reflexivity. Qed.

(** C4, on the code: the probe and the fetch look at different paths.
    With the object at the resolved path only, [Load] answers
    [fs.ErrNotExist]; with an object under the bare key only, nothing is at
    the resolved path and [Load] answers the SDK's error instead. *)
Theorem Load_probe_and_fetch_differ :
  (blobs sample.stored !! (Container sample.az, KeyPrefix sample.az sample.key)
   = Some (MkBlob sample.payload 1000%Z)
   /\ (Load sample.az sample.key sample.stored).1 = ([], Some ErrNotExist))
  /\ (blobs sample.bare !! (Container sample.az, KeyPrefix sample.az sample.key)
      = None
      /\ (Load sample.az sample.key sample.bare).1
         = ([], Some (ResponseError "BlobNotFound"))).
Proof. repeat split; vm_compute; reflexivity. Qed.

(* ===================================================================== *)
(** ** More on [path.Clean]: doubled and trailing slashes *)
(* ===================================================================== *)

Section clean_more.
Import gopath buffer keys.

Lemma rev_app_distr_str (a b : string) :
  String.rev (a +:+ b) = String.rev b +:+ String.rev a.
Proof.
  induction a as [|c a IH].
  - rewrite app_empty_l, app_empty_r. reflexivity.
  - rewrite app_cons, !rev_push, IH, app_assoc_str. reflexivity.
Qed.

Lemma single_slashes_doubled (a b : string) :
  single_slashes (a +:+ "//" +:+ b) = false.
Proof.
  induction a as [|c a IH]; [reflexivity|].
  rewrite app_cons. cbn [single_slashes]. rewrite IH. apply andb_false_r.
Qed.

Lemma Clean_nonempty (p : string) : Clean p <> "".
Proof.
  unfold Clean. destruct p as [|c rest1]; [discriminate|].
  match goal with |- context [String.rev ?o] => set (out := o) end.
  destruct (String.length out =? 0)%nat eqn:Hlen; [discriminate|].
  intros Hrev. apply (f_equal String.length) in Hrev.
  rewrite rev_length_str in Hrev. rewrite Hrev in Hlen. discriminate.
Qed.

(** A cleaned path has no doubled slash. *)
Lemma Clean_single_slashes (p : string) : ~ contains (Clean p) "//".
Proof.
  unfold Clean. destruct p as [|c rest1].
  { intros (pre & post & Heq). apply (f_equal String.length) in Heq.
    rewrite !length_app_str in Heq. simpl in Heq. lia. }
  set (out := if is_slash c then _ else _).
  assert (Hs : single_slashes out = true).
  { subst out. destruct (is_slash c) eqn:Hc.
    - destruct (clean_loop_kept (String.length (String.String c rest1)) true rest1
                  "/" 1) as (d & H & _); [|exact H].
      unfold kept.
      split_and!; [reflexivity | right; by split | simpl; lia | right; by split].
    - destruct (clean_loop_kept (String.length (String.String c rest1)) false
                  (String.String c rest1) "" 0) as (d & H & _); [|exact H].
      unfold kept.
      split_and!; [reflexivity | by left | simpl; lia | by left]. }
  destruct (String.length out =? 0)%nat.
  { intros (pre & post & Heq). apply (f_equal String.length) in Heq.
    rewrite !length_app_str in Heq. simpl in Heq. lia. }
  intros (pre & post & Heq).
  apply (f_equal String.rev) in Heq.
  rewrite rev_involutive_str, !rev_app_distr_str in Heq.
  change (String.rev "//") with "//" in Heq.
  rewrite app_assoc_str in Heq.
  rewrite Heq, single_slashes_doubled in Hs. discriminate.
Qed.

Lemma at_end_or_slash_app_slash (rest : string) :
  at_end_or_slash (rest +:+ "/") = at_end_or_slash rest.
Proof. destruct rest; reflexivity. Qed.

Lemma copy_element_app_slash (rest : string) :
  forall out : lazybuf,
    copy_element (rest +:+ "/") out
    = ((copy_element rest out).1 +:+ "/", (copy_element rest out).2).
Proof.
  induction rest as [|c rest IH]; intros out; [reflexivity|].
  rewrite app_cons. cbn [copy_element].
  destruct (is_slash c); [reflexivity|]. apply IH.
Qed.

(** One iteration of the loop, as an equation. *)
Lemma clean_loop_step (fuel : nat) (rooted : bool) (c : ascii)
      (rest1 : string) (out : lazybuf) (dotdot : nat) :
  clean_loop (S fuel) rooted (String.String c rest1) out dotdot
  = if is_slash c then clean_loop fuel rooted rest1 out dotdot
    else if is_dot c && at_end_or_slash rest1
    then clean_loop fuel rooted rest1 out dotdot
    else if is_dot c
            && match rest1 with
               | String.String c1 rest2 => is_dot c1 && at_end_or_slash rest2
               | EmptyString => false
               end
    then
      let rest2 := match rest1 with
                   | String.String _ rest2 => rest2
                   | EmptyString => EmptyString
                   end in
      if (dotdot <? String.length out)%nat then
        match out with
        | String.String last out' =>
            clean_loop fuel rooted rest2 (backtrack last out' dotdot) dotdot
        | EmptyString => clean_loop fuel rooted rest2 out dotdot
        end
      else if negb rooted then
        let out1 := if (0 <? String.length out)%nat
                    then String.String "/"%char out else out in
        let out2 := String.String "."%char (String.String "."%char out1) in
        clean_loop fuel rooted rest2 out2 (String.length out2)
      else clean_loop fuel rooted rest2 out dotdot
    else
      let out1 :=
        if (rooted && negb (String.length out =? 1)%nat)
           || (negb rooted && negb (String.length out =? 0)%nat)
        then String.String "/"%char out else out in
      clean_loop fuel rooted
        (copy_element (String.String c rest1) out1).1
        (copy_element (String.String c rest1) out1).2 dotdot.
Proof.
  cbn [clean_loop].
  destruct (copy_element (String.String c rest1) _) as [rest' out2].
  reflexivity.
Qed.

(** A slash at the end of the path is an empty element: the loop does
    nothing with it. *)
Lemma clean_loop_app_slash (fuel : nat) :
  forall (rooted : bool) (rest : string) (out : lazybuf) (dotdot : nat),
    (String.length rest <= fuel)%nat ->
    clean_loop (S fuel) rooted (rest +:+ "/") out dotdot
    = clean_loop fuel rooted rest out dotdot.
Proof.
  induction fuel as [|fuel IH]; intros rooted rest out dotdot Hfuel.
  { destruct rest; [reflexivity | simpl in Hfuel; lia]. }
  destruct rest as [|c rest1].
  { reflexivity. }
  simpl in Hfuel. rewrite app_cons.
  rewrite (clean_loop_step (S fuel)), (clean_loop_step fuel).
  destruct (is_slash c) eqn:Hc; [apply IH; lia|].
  rewrite at_end_or_slash_app_slash.
  destruct (is_dot c && at_end_or_slash rest1); [apply IH; lia|].
  cbv zeta. rewrite <- app_cons, copy_element_app_slash.
  pose proof (copy_element_length rest1) as Hlen.
  assert (Hcopy : forall o, (String.length (copy_element (String.String c rest1) o).1
                             <= String.length rest1)%nat).
  { intros o. cbn [copy_element]. rewrite Hc. apply Hlen. }
  destruct rest1 as [|c1 rest2].
  - (* the last element is a single byte, not a dot *)
    rewrite app_empty_l.
    change (is_dot "/"%char) with false. rewrite !andb_false_r.
    cbv zeta. cbn [fst snd]. apply IH. etrans; [apply Hcopy|]. simpl; lia.
  - rewrite app_cons. rewrite at_end_or_slash_app_slash.
    simpl in Hfuel.
    destruct (is_dot c && (is_dot c1 && at_end_or_slash rest2)).
    + cbv zeta. destruct (dotdot <? String.length out)%nat.
      * destruct out; apply IH; lia.
      * destruct (negb rooted); apply IH; lia.
    + cbv zeta. cbn [fst snd]. apply IH. etrans; [apply Hcopy|]. simpl; lia.
Qed.

(** [Clean] does not see a slash at the end of a non-empty path. *)
Lemma Clean_app_slash (p : string) :
  p <> "" -> Clean (p +:+ "/") = Clean p.
Proof.
  intros Hp. destruct p as [|c rest1]; [congruence|].
  unfold Clean. rewrite app_cons.
  cbn [String.length]. rewrite length_app_str.
  replace (String.length rest1 + String.length "/")%nat
    with (S (String.length rest1)) by (simpl; lia).
  destruct (is_slash c).
  - rewrite clean_loop_app_slash by lia. reflexivity.
  - rewrite <- app_cons. rewrite clean_loop_app_slash by (simpl; lia).
    reflexivity.
Qed.

End clean_more.

(* ===================================================================== *)
(** ** The shape of resolved paths *)
(* ===================================================================== *)

Section namespace_more.
Import gopath keys.

Lemma Join_single_slashes (elem : list string) : ~ contains (Join elem) "//".
Proof.
  unfold Join. destruct (_ =? 0)%nat; [|apply Clean_single_slashes].
  intros (pre & post & Heq). apply (f_equal String.length) in Heq.
  rewrite !length_app_str in Heq. simpl in Heq. lia.
Qed.

Lemma Join_two_empty (p k : string) : Join [p; k] = "" <-> p = "" /\ k = "".
Proof.
  split.
  - unfold Join. cbn [foldr].
    destruct p as [|c p]; destruct k as [|d k]; cbn [String.length Nat.add Nat.eqb];
      try (intros H; by apply Clean_nonempty in H).
    by split.
  - intros [-> ->]. reflexivity.
Qed.

Lemma Join_app_slash (p k : string) :
  p <> "" \/ k <> "" -> Join [p; k +:+ "/"] = Join [p; k].
Proof.
  intros Hne. destruct (String.eqb_spec p "") as [->|Hp].
  - destruct Hne as [?|Hk]; [congruence|].
    rewrite !Join_empty; [by apply Clean_app_slash | exact Hk |].
    destruct k; [congruence | discriminate].
  - rewrite !Join_two by exact Hp.
    rewrite <- !app_assoc_str. apply Clean_app_slash.
    destruct p; [congruence | discriminate].
Qed.

Lemma substring_split (s : string) :
  forall n : nat,
    (n <= String.length s)%nat ->
    String.substring 0 n s +:+ String.substring n (String.length s - n) s = s.
Proof.
  induction s as [|c s IH]; intros n Hn.
  - simpl in Hn. assert (n = 0)%nat as -> by lia. reflexivity.
  - destruct n as [|n].
    + cbn [String.substring String.length Nat.sub].
      rewrite app_empty_l, substring_all. reflexivity.
    + simpl in Hn. cbn [String.substring String.length Nat.sub].
      rewrite app_cons, IH by lia. reflexivity.
Qed.

Lemma CutPrefix_found (s p : string) :
  gostrings.HasPrefix s p = true ->
  exists rest : string, gostrings.CutPrefix s p = (rest, true) /\ s = p +:+ rest.
Proof.
  intros HP. unfold gostrings.CutPrefix. rewrite HP. cbn [negb].
  eexists. split; [reflexivity|].
  unfold gostrings.HasPrefix in HP. apply andb_true_iff in HP as [Hlen Heq].
  apply Nat.leb_le in Hlen. apply String.eqb_eq in Heq.
  rewrite <- Heq at 1. symmetry. by apply substring_split.
Qed.

End namespace_more.

(** X1: a resolved backend path never contains a doubled slash, and never
    ends in a slash unless it is the root path [/] itself. *)
Theorem KeyPrefix_normalized (az : AzureBlob) (key : string) :
  ~ keys.contains (KeyPrefix az key) "//"
  /\ (gostrings.HasSuffix (KeyPrefix az key) "/" = false
      \/ KeyPrefix az key = "/").
Proof.
  split; [apply Join_single_slashes|].
  destruct (gostrings.HasSuffix (KeyPrefix az key) "/") eqn:HS; [|by left].
  right. by apply Join_trailing_slash.
Qed.

(** X2: the resolved path is empty exactly when both the prefix and the
    key are empty. *)
Theorem KeyPrefix_empty_iff (az : AzureBlob) (key : string) :
  KeyPrefix az key = "" <-> Prefix az = "" /\ key = "".
Proof. apply Join_two_empty. Qed.

(** X3: a slash at the end of a key makes no difference to the resolved
    path (unless prefix and key are both empty), so [Stat], [Store],
    [Delete] and [List] treat [key/] and [key] alike. *)
Theorem KeyPrefix_trailing_slash (az : AzureBlob) (key : string) :
  Prefix az <> "" \/ key <> "" ->
  KeyPrefix az (key +:+ "/") = KeyPrefix az key
  /\ Stat az (key +:+ "/") = Stat az key
  /\ (forall value, Store az (key +:+ "/") value = Store az key value)
  /\ Delete az (key +:+ "/") = Delete az key
  /\ (forall recursive, List az (key +:+ "/") recursive = List az key recursive).
Proof.
  intros Hne.
  assert (HK : KeyPrefix az (key +:+ "/") = KeyPrefix az key)
    by (by apply Join_app_slash).
  unfold Stat, Store, Delete, List. rewrite HK. by repeat split.
Qed.

Lemma KeyPrefix_trailing_slash_witness :
  KeyPrefix sample.az (sample.key +:+ "/") = KeyPrefix sample.az sample.key
  /\ Stat sample.az (sample.key +:+ "/") = Stat sample.az sample.key
  /\ (forall value,
         Store sample.az (sample.key +:+ "/") value
         = Store sample.az sample.key value)
  /\ Delete sample.az (sample.key +:+ "/") = Delete sample.az sample.key
  /\ (forall recursive,
         List sample.az (sample.key +:+ "/") recursive
         = List sample.az sample.key recursive).
Proof.
  apply (KeyPrefix_trailing_slash sample.az sample.key).
  left. discriminate.
Defined.

(** X4: [CutKeyPrefix] either finds the prefix at the front of the path
    and removes exactly those bytes, or returns the path as it is. *)
Theorem CutKeyPrefix_cases (az : AzureBlob) (path : string) :
  (gostrings.HasPrefix path (Prefix az) = true
   /\ path = Prefix az +:+ CutKeyPrefix az path)
  \/ (gostrings.HasPrefix path (Prefix az) = false
      /\ CutKeyPrefix az path = path).
Proof.
  unfold CutKeyPrefix.
  destruct (gostrings.HasPrefix path (Prefix az)) eqn:HP.
  - left. split; [reflexivity|].
    destruct (CutPrefix_found _ _ HP) as (rest & -> & Hsplit). exact Hsplit.
  - right. split; [reflexivity|].
    unfold gostrings.CutPrefix. rewrite HP. reflexivity.
Qed.

(** X5: on a backend without prefix the namespace mapping is the
    identity on clean relative keys, in both directions. *)
Theorem no_prefix_identity (az : AzureBlob) (key : string) :
  Prefix az = "" -> keys.clean_relative key = true ->
  KeyPrefix az key = key
  /\ CutKeyPrefix az key = key
  /\ CutKeyPrefix az (KeyPrefix az key) = key.
Proof.
  intros Hp Hk.
  assert (HC : CutKeyPrefix az key = key).
  { unfold CutKeyPrefix. rewrite Hp.
    change key with ("" +:+ key) at 1. rewrite CutPrefix_app. reflexivity. }
  rewrite KeyPrefix_no_prefix by assumption. by repeat split.
Qed.

Lemma no_prefix_identity_witness :
  KeyPrefix sample.az_plain sample.key = sample.key
  /\ CutKeyPrefix sample.az_plain sample.key = sample.key
  /\ CutKeyPrefix sample.az_plain (KeyPrefix sample.az_plain sample.key)
     = sample.key.
Proof.
  apply (no_prefix_identity sample.az_plain sample.key); reflexivity.
Defined.

(* ===================================================================== *)
(** ** Reading: Exists, Load, Stat, List *)
(* ===================================================================== *)

Section reading.

Lemma call_blobs {A : Type} (run : Remote (result A)) (w : World) :
  (forall w0, blobs (run w0).2 = blobs w0) ->
  blobs (call run w).2 = blobs w.
Proof.
  intros Hrun. unfold call, bind, next_fault, ret.
  destruct (pending_fault w); cbn; [reflexivity|].
  rewrite Hrun. reflexivity.
Qed.

Lemma GetProperties_blobs (c : azblob.Client) (container name : string)
      (w : World) :
  blobs (GetProperties c container name w).2 = blobs w.
Proof.
  unfold GetProperties. apply call_blobs. intros w0.
  destruct (blobs w0 !! (container, name)); reflexivity.
Qed.

Lemma Exists_blobs (az : AzureBlob) (key : string) (w : World) :
  blobs (Exists az key w).2 = blobs w.
Proof.
  destruct w as [bl t fl].
  unfold Exists, NewSharedKeyCredential, NewClientWithSharedKeyCredential,
    GetProperties, call, bind, next_fault, ret.
  destruct fl as [|[c0|] [|[c1|] [|[c2|] fs]]]; cbn; try reflexivity;
    destruct (bl !! (Container az, key)); reflexivity.
Qed.

Lemma Stat_blobs (az : AzureBlob) (key : string) (w : World) :
  blobs (Stat az key w).2 = blobs w.
Proof.
  unfold Stat, bind.
  pose proof (GetProperties_blobs (Client az) (Container az)
                (KeyPrefix az key) w) as HG.
  destruct (GetProperties _ _ _ w) as [[props|e] w']; exact HG.
Qed.

Lemma Load_blobs (az : AzureBlob) (key : string) (w : World) :
  blobs (Load az key w).2 = blobs w.
Proof.
  unfold Load, bind.
  pose proof (Exists_blobs az key w) as HE.
  destruct (Exists az key w) as [found w1]. cbn [snd] in HE.
  destruct found; cbn [negb]; [|exact HE].
  rewrite <- HE.
  unfold DownloadStream, ReadAll, call, bind, next_fault, ret.
  destruct (pending_fault w1); cbn; [reflexivity|].
  destruct (blobs w1 !! _); cbn; [|reflexivity].
  destruct (pending_fault _); reflexivity.
Qed.

Lemma segments_concat (names : list string) :
  forall (room : nat) (cur : list string),
    concat (segments names room cur) = rev cur ++ names.
Proof.
  induction names as [|name names IH]; intros room cur.
  - cbn [segments concat]. rewrite !app_nil_r. reflexivity.
  - destruct room as [|room]; cbn [segments concat].
    + rewrite IH. reflexivity.
    + rewrite IH. cbn [rev]. rewrite <- app_assoc. reflexivity.
Qed.

Lemma NextPage_run (page : list string) (w : World) :
  NextPage page w
  = match pending_fault w with
    | Some code => (Err (ResponseError code), advance w)
    | None => (Ok page, advance w)
    end.
Proof.
  unfold NextPage, call, bind, next_fault, ret.
  destruct (pending_fault w); reflexivity.
Qed.

(** The page loop ends with every key of every page, or, at the first
    page fetch that fails, with the error of that fetch and no key at
    all. *)
Lemma List_pages_run (az : AzureBlob) (pager : Pager) :
  forall (keys : list string) (w : World),
    (List_pages az pager keys w).1
    = match first_fault (length pager) (faults w) with
      | Some code => ([], Some (ResponseError code))
      | None => (keys ++ map (CutKeyPrefix az) (concat pager), None)
      end.
Proof.
  induction pager as [|page pager IH]; intros keys w.
  - cbn. rewrite app_nil_r. reflexivity.
  - cbn [List_pages]. unfold bind. rewrite NextPage_run.
    destruct w as [bl t fl n]. unfold pending_fault, advance.
    cbn [faults blobs now arrived length first_fault].
    destruct fl as [|[code|] fl]; cbn [tail first_fault].
    + rewrite IH. cbn [faults]. destruct (length pager); cbn [first_fault].
      * cbn [concat]. rewrite map_app, app_assoc. reflexivity.
      * cbn [concat]. rewrite map_app, app_assoc. reflexivity.
    + reflexivity.
    + rewrite IH. cbn [faults]. destruct (first_fault _ _); [reflexivity|].
      cbn [concat]. rewrite map_app, app_assoc. reflexivity.
Qed.

Lemma List_pages_result (az : AzureBlob) (pager : Pager)
      (keys : list string) (w : World) :
  (List_pages az pager keys w).1
  = (keys ++ map (CutKeyPrefix az) (concat pager), None)
  \/ exists e : error, (List_pages az pager keys w).1 = ([], Some e).
Proof.
  rewrite List_pages_run.
  destruct (first_fault _ _); [right; by eexists | left; reflexivity].
Qed.

Lemma List_pages_blobs (az : AzureBlob) (pager : Pager) :
  forall (keys : list string) (w : World),
    blobs (List_pages az pager keys w).2 = blobs w.
Proof.
  induction pager as [|page pager IH]; intros keys w; [reflexivity|].
  cbn [List_pages]. unfold bind. rewrite NextPage_run.
  destruct (pending_fault w) as [code|]; [reflexivity|].
  rewrite IH. reflexivity.
Qed.

Lemma List_pages_no_faults (az : AzureBlob) (pager : Pager) :
  forall (keys : list string) (w : World),
    faults w = [] -> (List_pages az pager keys w).1.2 = None.
Proof.
  induction pager as [|page pager IH]; intros keys w Hf; [reflexivity|].
  cbn [List_pages]. unfold bind. rewrite NextPage_run.
  unfold pending_fault. rewrite Hf.
  apply IH. cbn. rewrite Hf. reflexivity.
Qed.

(** The names the service lists: the blobs of the container whose name
    starts with the prefix. *)
Lemma elem_of_matching (w : World) (container prefix name : string) :
  name ∈ matching w container prefix
  <-> is_Some (blobs w !! (container, name))
      /\ gostrings.HasPrefix name prefix = true.
Proof.
  unfold matching. rewrite merge_sort_Permutation, list_elem_of_omap. split.
  - intros ([[c n] b] & Hin & Hf).
    apply elem_of_map_to_list in Hin.
    destruct (String.eqb c container) eqn:Hc; [|discriminate].
    destruct (gostrings.HasPrefix n prefix) eqn:Hp; [|discriminate].
    cbn in Hf. injection Hf as <-. apply String.eqb_eq in Hc as ->.
    split; [eauto | exact Hp].
  - intros [[b Hb] Hp]. exists ((container, name), b).
    split; [by apply elem_of_map_to_list|].
    rewrite String.eqb_refl, Hp. reflexivity.
Qed.

(** What [List] returns, from the pages. *)
Lemma List_result (az : AzureBlob) (prefix : string) (recursive : bool)
      (w : World) :
  ((List az prefix recursive w).1
   = (map (CutKeyPrefix az)
          (matching w (Container az) (KeyPrefix az prefix)), None)
   \/ exists e : error, (List az prefix recursive w).1 = ([], Some e))
  /\ (faults w = [] -> (List az prefix recursive w).1.2 = None).
Proof.
  unfold List, bind, NewListBlobsFlatPager. split.
  - destruct (List_pages_result az
                (segments (matching w (Container az) (KeyPrefix az prefix))
                          maxresults [])
                [] w) as [H|H]; [left|right; exact H].
    rewrite H, segments_concat. reflexivity.
  - apply List_pages_no_faults.
Qed.

End reading.

(** X6: [Exists] answers [true] exactly when its three SDK calls go
    through and a blob is stored under the key as given, in the configured
    container. *)
Theorem Exists_true_iff (az : AzureBlob) (key : string) (w : World) :
  (Exists az key w).1 = true
  <-> pending_fault w = None
      /\ pending_fault (advance w) = None
      /\ pending_fault (advance (advance w)) = None
      /\ is_Some (blobs w !! (Container az, key)).
Proof.
  destruct w as [bl t fl].
  unfold Exists, NewSharedKeyCredential, NewClientWithSharedKeyCredential,
    GetProperties, call, bind, next_fault, ret, pending_fault, advance.
  destruct fl as [|[c0|] [|[c1|] [|[c2|] fs]]]; cbn;
    try (split; [discriminate | intros (? & ? & ? & ?); discriminate]);
    (destruct (bl !! (Container az, key)) as [b|]; cbn;
     [split; [intros _; repeat split; eauto | reflexivity]
     |split; [discriminate | intros (_ & _ & _ & [b Hb]); discriminate]]).
Qed.

(** X7: the reading operations [Exists], [Load], [Stat] and [List] never
    change what is stored, whatever the SDK calls do. *)
Theorem reading_keeps_blobs (az : AzureBlob) (key prefix : string)
        (recursive : bool) (w : World) :
  blobs (Exists az key w).2 = blobs w
  /\ blobs (Load az key w).2 = blobs w
  /\ blobs (Stat az key w).2 = blobs w
  /\ blobs (List az prefix recursive w).2 = blobs w.
Proof.
  split; [apply Exists_blobs|]. split; [apply Load_blobs|].
  split; [apply Stat_blobs|].
  unfold List, bind, NewListBlobsFlatPager. apply List_pages_blobs.
Qed.

(** X8: when [Load] returns without error, a blob is stored under the
    bare key (the probe) and another under the resolved path (the fetch),
    and the bytes returned are the payload of the latter. *)
Theorem Load_returns_stored_payload (az : AzureBlob) (key : string)
        (w w' : World) (body : list Byte.byte) :
  Load az key w = (body, None, w') ->
  is_Some (blobs w !! (Container az, key))
  /\ exists b : Blob,
      blobs w !! (Container az, KeyPrefix az key) = Some b /\ Body b = body.
Proof.
  unfold Load, bind.
  pose proof (Exists_blobs az key w) as HB.
  pose proof (Exists_true az key w) as HT.
  destruct (Exists az key w) as [found w1]. cbn [fst snd] in HB, HT.
  destruct found; cbn [negb]; [|discriminate].
  rewrite <- HB. rewrite <- HB in HT.
  unfold DownloadStream, ReadAll, call, bind, next_fault, ret.
  destruct (pending_fault w1); cbn; [discriminate|].
  destruct (blobs w1 !! (Container az, KeyPrefix az key)) as [b|]; cbn;
    [|discriminate].
  destruct (pending_fault _); cbn; [discriminate|].
  intros [= <- _]. split; [by apply HT | by exists b].
Qed.

Lemma Load_returns_stored_payload_witness :
  is_Some (blobs sample.bare !! (Container sample.az_plain, sample.key))
  /\ exists b : Blob,
      blobs sample.bare
        !! (Container sample.az_plain, KeyPrefix sample.az_plain sample.key)
      = Some b
      /\ Body b = sample.payload.
Proof.
  apply (Load_returns_stored_payload sample.az_plain sample.key sample.bare
           sample.bare sample.payload).
  vm_compute. reflexivity.
Defined.

(** X9: [List] returns all or nothing.  When none of its page fetches
    fails: the names of the blobs of the container that start with the
    resolved prefix, each cut by [CutKeyPrefix], in the ascending order in
    which the service lists them, and a nil error.  Otherwise: no key, and
    the error of the first page fetch that failed. *)
Theorem List_all_or_nothing (az : AzureBlob) (prefix : string)
        (recursive : bool) (w : World) :
  let names := matching w (Container az) (KeyPrefix az prefix) in
  (List az prefix recursive w).1
  = match first_fault (length (segments names maxresults [])) (faults w) with
    | Some code => ([], Some (ResponseError code))
    | None => (map (CutKeyPrefix az) names, None)
    end
  /\ Sorted String.le names.
Proof.
  cbv zeta. split; [|apply (Sorted_merge_sort String.le)].
  unfold List, bind, NewListBlobsFlatPager. cbn [fst snd].
  rewrite List_pages_run, segments_concat. reflexivity.
Qed.

(** X10: a key is in a successful listing exactly when it is the cut
    name of a blob of the configured container whose name starts with the
    resolved prefix. *)
Theorem List_keys (az : AzureBlob) (prefix : string) (recursive : bool)
        (w w' : World) (keys : list string) (k : string) :
  List az prefix recursive w = (keys, None, w') ->
  k ∈ keys
  <-> exists name : string,
      is_Some (blobs w !! (Container az, name))
      /\ gostrings.HasPrefix name (KeyPrefix az prefix) = true
      /\ k = CutKeyPrefix az name.
Proof.
  intros HL.
  destruct (List_result az prefix recursive w) as [[H|[e H]] _];
    rewrite HL in H; cbn [fst] in H; [|discriminate].
  injection H as ->.
  rewrite list_elem_of_fmap. split.
  - intros (name & -> & Hin). apply elem_of_matching in Hin as [Hb Hp].
    by exists name.
  - intros (name & Hb & Hp & ->). exists name. split; [reflexivity|].
    by apply elem_of_matching.
Qed.

Lemma List_keys_witness :
  sample.key ∈ [sample.key]
  <-> exists name : string,
      is_Some (blobs sample.bare !! (Container sample.az_plain, name))
      /\ gostrings.HasPrefix name (KeyPrefix sample.az_plain "certificates")
         = true
      /\ sample.key = CutKeyPrefix sample.az_plain name.
Proof.
  apply (List_keys sample.az_plain "certificates" true sample.bare sample.bare
           [sample.key] sample.key).
  vm_compute. reflexivity.
Defined.

(** X11: after a successful [Store], a listing whose resolved prefix
    starts the resolved key returns that key, cut by [CutKeyPrefix], when
    no SDK call fails. *)
Theorem Store_then_List (az : AzureBlob) (key prefix : string)
        (value : list Byte.byte) (recursive : bool) (w w1 : World) :
  Store az key value w = (None, w1) ->
  gostrings.HasPrefix (KeyPrefix az key) (KeyPrefix az prefix) = true ->
  faults w1 = [] ->
  (List az prefix recursive w1).1.2 = None
  /\ CutKeyPrefix az (KeyPrefix az key) ∈ (List az prefix recursive w1).1.1.
Proof.
  intros HS HP Hf. apply Store_Ok in HS.
  destruct (List_result az prefix recursive w1) as [[H|[e H]] Hnone].
  - rewrite H. split; [reflexivity|]. cbn [fst].
    apply list_elem_of_fmap. exists (KeyPrefix az key). split; [reflexivity|].
    apply elem_of_matching. split; [|exact HP].
    rewrite HS, lookup_insert_eq. eauto.
  - specialize (Hnone Hf). rewrite H in Hnone. discriminate.
Qed.

Lemma Store_then_List_witness :
  (List sample.az "certificates" true sample.stored).1.2 = None
  /\ CutKeyPrefix sample.az (KeyPrefix sample.az sample.key)
     ∈ (List sample.az "certificates" true sample.stored).1.1.
Proof.
  apply (Store_then_List sample.az sample.key "certificates" sample.payload
           true sample.empty sample.stored); vm_compute; reflexivity.
Defined.

(* ===================================================================== *)
(** ** Writing: Store and Delete *)
(* ===================================================================== *)

Section writing.

Lemma Store_run (az : AzureBlob) (key : string) (value : list Byte.byte)
      (w : World) :
  Store az key value w
  = match pending_fault w with
    | Some code => (Some (ResponseError code), advance w)
    | None =>
        (None,
         MkWorld (<[(Container az, KeyPrefix az key) := MkBlob value (now w)]>
                    (blobs w))
                 (now w) (tail (faults w)) (arrived w))
    end.
Proof.
  unfold Store, UploadBuffer, call, bind, next_fault, ret.
  destruct (pending_fault w); reflexivity.
Qed.

Lemma Delete_run (az : AzureBlob) (key : string) (w : World) :
  Delete az key w
  = match pending_fault w with
    | Some code => (Some (ResponseError code), advance w)
    | None =>
        match blobs w !! (Container az, KeyPrefix az key) with
        | Some _ =>
            (None,
             MkWorld (delete (Container az, KeyPrefix az key) (blobs w))
                     (now w) (tail (faults w)) (arrived w))
        | None => (Some (ResponseError "BlobNotFound"), advance w)
        end
    end.
Proof.
  unfold Delete, DeleteBlob, call, bind, next_fault, ret.
  destruct (pending_fault w); [reflexivity|]. cbn.
  destruct (blobs w !! (Container az, KeyPrefix az key)); reflexivity.
Qed.

End writing.

(** X12: [Store] and [Stat] agree on the path: after a successful
    [Store], a [Stat] of the same key whose request goes through reports
    the resolved path and the length of the stored payload. *)
Theorem Store_then_Stat (az : AzureBlob) (key : string)
        (value : list Byte.byte) (w w1 : World) :
  Store az key value w = (None, w1) -> pending_fault w1 = None ->
  exists ki : KeyInfo,
    Stat az key w1 = (ki, None, advance w1)
    /\ Key ki = KeyPrefix az key
    /\ Size ki = Z.of_nat (length value).
Proof.
  intros HS Hf. apply Store_Ok in HS.
  assert (Hb : blobs w1 !! (Container az, KeyPrefix az key)
               = Some (MkBlob value (now w)))
    by (rewrite HS; apply lookup_insert_eq).
  pose proof (GetProperties_present (Client az) _ _ w1 _ Hf Hb) as HG.
  rewrite (Stat_Ok _ _ _ _ _ HG). eexists. repeat split.
Qed.

Lemma Store_then_Stat_witness :
  exists ki : KeyInfo,
    Stat sample.az sample.key sample.stored = (ki, None, advance sample.stored)
    /\ Key ki = KeyPrefix sample.az sample.key
    /\ Size ki = Z.of_nat (length sample.payload).
Proof.
  apply (Store_then_Stat sample.az sample.key sample.payload
           sample.empty sample.stored); reflexivity.
Defined.

(** X13: a [Store] that fails leaves every blob as it was; one that
    succeeds writes the payload at the resolved path and leaves every
    other blob as it was. *)
Theorem Store_one_path (az : AzureBlob) (key : string)
        (value : list Byte.byte) (w : World) :
  ((Store az key value w).1 = None
   /\ blobs (Store az key value w).2 !! (Container az, KeyPrefix az key)
      = Some (MkBlob value (now w))
   /\ forall other : string * string,
       other <> (Container az, KeyPrefix az key) ->
       blobs (Store az key value w).2 !! other = blobs w !! other)
  \/ ((exists e : error, (Store az key value w).1 = Some e)
      /\ blobs (Store az key value w).2 = blobs w).
Proof.
  rewrite Store_run. destruct (pending_fault w) as [code|]; cbn.
  - right. split; [by eexists | reflexivity].
  - left. split; [reflexivity|]. split; [apply lookup_insert_eq|].
    intros other Hne. by apply lookup_insert_ne.
Qed.

(** X14: a [Delete] that succeeds found a blob at the resolved path and
    removed that blob only; one that fails leaves every blob as it was.
    Deleting a path where nothing is stored fails. *)
Theorem Delete_one_path (az : AzureBlob) (key : string) (w : World) :
  ((Delete az key w).1 = None
   /\ is_Some (blobs w !! (Container az, KeyPrefix az key))
   /\ blobs (Delete az key w).2
      = delete (Container az, KeyPrefix az key) (blobs w))
  \/ ((exists e : error, (Delete az key w).1 = Some e)
      /\ blobs (Delete az key w).2 = blobs w).
Proof.
  rewrite Delete_run. destruct (pending_fault w) as [code|]; cbn.
  - right. split; [by eexists | reflexivity].
  - destruct (blobs w !! (Container az, KeyPrefix az key)) as [b|] eqn:Hb; cbn.
    + left. split; [reflexivity|]. split; [eauto | reflexivity].
    + right. split; [by eexists | reflexivity].
Qed.

(** X15: after a successful [Delete], [Stat] of the same key returns the
    zero [KeyInfo] with a nil error. *)
Theorem Delete_then_Stat (az : AzureBlob) (key : string) (w w1 : World) :
  Delete az key w = (None, w1) ->
  Stat az key w1 = (KeyInfo_zero, None, advance w1).
Proof.
  rewrite Delete_run.
  destruct (pending_fault w) as [code|]; [discriminate|].
  destruct (blobs w !! (Container az, KeyPrefix az key)) as [b|]; [|discriminate].
  intros [= <-].
  match goal with |- Stat az key ?w1 = _ =>
    destruct (GetProperties_absent (Client az) (Container az)
                (KeyPrefix az key) w1) as (e & HG)
  end.
  { cbn. apply lookup_delete_eq. }
  by rewrite (Stat_Err _ _ _ _ _ HG).
Qed.

Lemma Delete_then_Stat_witness :
  Stat sample.az sample.key sample.empty
  = (KeyInfo_zero, None, advance sample.empty).
Proof.
  apply (Delete_then_Stat sample.az sample.key sample.stored sample.empty).
  vm_compute. reflexivity.
Defined.

(** X16: [Store] followed by [Delete] of the same key, with the request
    going through, succeeds and brings the container back to what it was
    when nothing was stored at the resolved path before. *)
Theorem Store_then_Delete (az : AzureBlob) (key : string)
        (value : list Byte.byte) (w w1 : World) :
  Store az key value w = (None, w1) -> pending_fault w1 = None ->
  (Delete az key w1).1 = None
  /\ (blobs w !! (Container az, KeyPrefix az key) = None ->
      blobs (Delete az key w1).2 = blobs w).
Proof.
  intros HS Hf. apply Store_Ok in HS.
  rewrite Delete_run, Hf, HS, lookup_insert_eq. cbn.
  split; [reflexivity|]. intros Hnone.
  rewrite delete_insert_eq. by apply delete_id.
Qed.

Lemma Store_then_Delete_witness :
  (Delete sample.az sample.key sample.stored).1 = None
  /\ blobs (Delete sample.az sample.key sample.stored).2 = blobs sample.empty.
Proof.
  destruct (Store_then_Delete sample.az sample.key sample.payload
              sample.empty sample.stored eq_refl eq_refl) as [Hok Hback].
  split; [exact Hok | exact (Hback eq_refl)].
Defined.

(* ===================================================================== *)
(** ** Provision *)
(* ===================================================================== *)

Section provision.

Lemma or_env_idem (env : gmap string string) (field name : string) :
  or_env env (or_env env field name) name = or_env env field name.
Proof.
  unfold or_env. destruct (String.eqb field "") eqn:Hf; [|by rewrite Hf].
  destruct (String.eqb (goos.Getenv env name) "") eqn:Hg; [|reflexivity].
  reflexivity.
Qed.

(** The settings [Provision] leaves in the receiver, whatever becomes of
    the client. *)
Lemma Provision_fields (env : gmap string string) (az : AzureBlob) (w : World) :
  AccountName (Provision env az w).1.1
  = or_env env (AccountName az) "AZURE_ACCOUNT_NAME"
  /\ AccountKey (Provision env az w).1.1
     = or_env env (AccountKey az) "AZURE_ACCOUNT_KEY"
  /\ Container (Provision env az w).1.1
     = or_env env (Container az) "AZURE_CONTAINER"
  /\ Prefix (Provision env az w).1.1
     = or_env env (Prefix az) "AZURE_PREFIX".
Proof.
  destruct w as [bl t fl].
  unfold Provision, NewSharedKeyCredential, NewClientWithSharedKeyCredential,
    call, bind, next_fault, ret.
  destruct fl as [|[c0|] [|[c1|] fs]]; cbn; by repeat split.
Qed.

End provision.

(** X17: [Provision] never touches the stored blobs.  When it returns an
    error the [Client] field is left as it was; when it returns nil the
    client is the one built for the resolved account name, with the
    credential of the resolved account name and key. *)
Theorem Provision_client (env : gmap string string) (az : AzureBlob)
        (w : World) :
  blobs (Provision env az w).2 = blobs w
  /\ ((Provision env az w).1.2 <> None ->
      Client (Provision env az w).1.1 = Client az)
  /\ ((Provision env az w).1.2 = None ->
      Client (Provision env az w).1.1
      = MkClient ("https://" +:+ AccountName (Provision env az w).1.1
                  +:+ ".blob.core.windows.net")
                 (MkCredential (AccountName (Provision env az w).1.1)
                               (AccountKey (Provision env az w).1.1))).
Proof.
  destruct w as [bl t fl].
  unfold Provision, NewSharedKeyCredential, NewClientWithSharedKeyCredential,
    call, bind, next_fault, ret.
  destruct fl as [|[c0|] [|[c1|] fs]]; cbn;
    (split; [reflexivity|]; split; [intros Hne|intros Heq];
     first [reflexivity | discriminate | congruence]).
Qed.

Lemma Provision_client_witness :
  Client (Provision sample.env sample.unconfigured sample.empty_failing).1.1
  = sample.client
  /\ Client (Provision sample.env sample.unconfigured sample.empty).1.1
     = MkClient "https://envstore.blob.core.windows.net"
                (MkCredential "envstore" "ZW52").
Proof.
  split.
  - apply (Provision_client sample.env sample.unconfigured sample.empty_failing).
    discriminate.
  - apply (proj2 (proj2 (Provision_client sample.env sample.unconfigured
                           sample.empty))).
    reflexivity.
Defined.

(** X18: a setting given in the configuration is never replaced by
    [Provision]; an empty one takes the value of its environment variable.
    Provisioning the result again under the same environment changes no
    setting. *)
Theorem Provision_settings (env : gmap string string) (az : AzureBlob)
        (w w2 : World) :
  let az1 := (Provision env az w).1.1 in
  let az2 := (Provision env az1 w2).1.1 in
  (AccountName az1 = if String.eqb (AccountName az) ""
                     then goos.Getenv env "AZURE_ACCOUNT_NAME"
                     else AccountName az)
  /\ (AccountKey az1 = if String.eqb (AccountKey az) ""
                       then goos.Getenv env "AZURE_ACCOUNT_KEY"
                       else AccountKey az)
  /\ (Container az1 = if String.eqb (Container az) ""
                      then goos.Getenv env "AZURE_CONTAINER"
                      else Container az)
  /\ (Prefix az1 = if String.eqb (Prefix az) ""
                   then goos.Getenv env "AZURE_PREFIX"
                   else Prefix az)
  /\ (AccountName az2, AccountKey az2, Container az2, Prefix az2)
     = (AccountName az1, AccountKey az1, Container az1, Prefix az1).
Proof.
  cbv zeta.
  destruct (Provision_fields env az w) as (H1 & H2 & H3 & H4).
  destruct (Provision_fields env (Provision env az w).1.1 w2)
    as (G1 & G2 & G3 & G4).
  rewrite G1, G2, G3, G4, H1, H2, H3, H4, !or_env_idem.
  by repeat split.
Qed.

(* ===================================================================== *)
(** ** UnmarshalCaddyfile *)
(* ===================================================================== *)

Section unmarshal.
Import caddyfile settings.
Context `{Tokens}.

Lemma Next_tokens (d : Dispenser) : tokens (Next d).2 = tokens d.
Proof. unfold Next. destruct (_ <? _)%Z; reflexivity. Qed.

Lemma Next_cursor (d : Dispenser) :
  ((Next d).1 = true /\ cursor (Next d).2 = (cursor d + 1)%Z
   /\ (cursor d < len d - 1)%Z)
  \/ ((Next d).1 = false /\ (Next d).2 = d /\ (len d - 1 <= cursor d)%Z).
Proof.
  unfold Next. destruct (cursor d <? len d - 1)%Z eqn:Hlt; cbn.
  - left. apply Z.ltb_lt in Hlt. auto.
  - right. apply Z.ltb_ge in Hlt. auto.
Qed.

Lemma nextOnSameLine_spec (d : Dispenser) :
  tokens (nextOnSameLine d).2 = tokens d
  /\ (((nextOnSameLine d).1 = false /\ cursor (nextOnSameLine d).2 = cursor d)
      \/ ((nextOnSameLine d).1 = true
          /\ cursor (nextOnSameLine d).2 = (cursor d + 1)%Z)).
Proof.
  unfold nextOnSameLine.
  destruct (cursor d <? 0)%Z; [cbn; auto|].
  destruct (len d - 1 <=? cursor d)%Z; [cbn; auto|].
  destruct (tokens d !! _) as [curr|]; [|cbn; auto].
  destruct (tokens d !! _) as [next|]; [|cbn; auto].
  destruct (negb _); cbn; auto.
Qed.

(** [Args] keeps the tokens and never moves the cursor back. *)
Lemma Args_spec (value : string) (d : Dispenser) :
  tokens (Args value d).2 = tokens d
  /\ (cursor d <= cursor (Args value d).2)%Z.
Proof.
  unfold Args, NextArg.
  destruct (nextOnSameLine_spec d) as [Ht Hc].
  destruct (nextOnSameLine d) as [same d1]. cbn [fst snd] in Ht, Hc.
  destruct Hc as [[-> Hc]|[-> Hc]]; cbn [negb].
  - cbn. split; [exact Ht | lia].
  - destruct (String.eqb (Val d1) "{"); cbn; (split; [exact Ht | lia]).
Qed.

(** The current token's text is the text of one of the tokens, or
    empty. *)
Lemma Val_cases (d : Dispenser) :
  Val d = "" \/ exists t : Token, t ∈ tokens d /\ Val d = Text t.
Proof.
  unfold Val. destruct (_ || _); [by left|].
  destruct (tokens d !! Z.to_nat (cursor d)) as [t|] eqn:Ht; [|by left].
  right. exists t. split; [|reflexivity]. by eapply list_elem_of_lookup_2.
Qed.

(** The loop has fuel enough: more of it changes nothing. *)
Lemma UnmarshalCaddyfile_loop_fuel (fuel1 : nat) :
  forall (fuel2 : nat) (az : AzureBlob) (d : Dispenser),
    (len d - 1 - cursor d <= Z.of_nat fuel1)%Z ->
    (len d - 1 - cursor d <= Z.of_nat fuel2)%Z ->
    UnmarshalCaddyfile_loop fuel1 az d = UnmarshalCaddyfile_loop fuel2 az d.
Proof.
  induction fuel1 as [|fuel1 IH]; intros fuel2 az d H1 H2.
  - destruct fuel2 as [|fuel2]; [reflexivity|]. cbn [UnmarshalCaddyfile_loop].
    destruct (Next_cursor d) as [(_ & _ & Hlt)|(Hf & Hd & _)]; [lia|].
    destruct (Next d) as [more d1]. cbn [fst snd] in Hf, Hd. subst.
    reflexivity.
  - destruct fuel2 as [|fuel2]; cbn [UnmarshalCaddyfile_loop].
    + destruct (Next_cursor d) as [(_ & _ & Hlt)|(Hf & Hd & _)]; [lia|].
      destruct (Next d) as [more d1]. cbn [fst snd] in Hf, Hd. subst.
      reflexivity.
    + pose proof (Next_tokens d) as Ht.
      destruct (Next_cursor d) as [(Hm & Hc & Hlt)|(Hf & Hd & _)];
        destruct (Next d) as [more d1]; cbn [fst snd] in *; subst;
        [|reflexivity].
      cbn [negb].
      destruct (Args_spec "" d1) as [Ht2 Hc2].
      destruct (Args "" d1) as [[ok value] d2]. cbn [fst snd] in Ht2, Hc2.
      assert (Hlen : len d2 = len d) by (unfold len; rewrite Ht2, Ht; reflexivity).
      destruct ok; cbn [negb]; apply IH; lia.
Qed.

Section field.
Variable A : Type.
Variable proj : AzureBlob -> A.
Variable name : string.
Hypothesis assign_other :
  forall (key value : string) (az : AzureBlob),
    key <> name -> proj (assign key value az) = proj az.

(** A field whose directive is the text of no token keeps its value. *)
Lemma UnmarshalCaddyfile_loop_keeps (fuel : nat) :
  forall (az : AzureBlob) (d : Dispenser),
    name <> "" ->
    (forall t : Token, t ∈ tokens d -> Text t <> name) ->
    proj (UnmarshalCaddyfile_loop fuel az d).1 = proj az.
Proof.
  induction fuel as [|fuel IH]; intros az d Hname Hno; [reflexivity|].
  cbn [UnmarshalCaddyfile_loop].
  pose proof (Next_tokens d) as Ht.
  destruct (Next d) as [[|] d1]; cbn [negb fst snd] in *; [|reflexivity].
  destruct (Args_spec "" d1) as [Ht2 _].
  assert (Hkey : Val d1 <> name).
  { destruct (Val_cases d1) as [->|(t & Hin & ->)]; [congruence|].
    apply Hno. by rewrite <- Ht. }
  destruct (Args "" d1) as [[ok value] d2]. cbn [fst snd] in Ht2.
  assert (Hno2 : forall t, t ∈ tokens d2 -> Text t <> name)
    by (intros t Hin; apply Hno; by rewrite <- Ht, <- Ht2).
  destruct ok; cbn [negb].
  - rewrite IH by assumption. by apply assign_other.
  - by apply IH.
Qed.

End field.

Lemma assign_AccountName (key value : string) (az : AzureBlob) :
  key <> "account_name" -> AccountName (assign key value az) = AccountName az.
Proof.
  intros Hk. unfold assign.
  repeat case_match; try reflexivity; exfalso; apply Hk; by apply String.eqb_eq.
Qed.

Lemma assign_AccountKey (key value : string) (az : AzureBlob) :
  key <> "account_key" -> AccountKey (assign key value az) = AccountKey az.
Proof.
  intros Hk. unfold assign.
  repeat case_match; try reflexivity; exfalso; apply Hk; by apply String.eqb_eq.
Qed.

Lemma assign_Container (key value : string) (az : AzureBlob) :
  key <> "container" -> Container (assign key value az) = Container az.
Proof.
  intros Hk. unfold assign.
  repeat case_match; try reflexivity; exfalso; apply Hk; by apply String.eqb_eq.
Qed.

Lemma assign_Prefix (key value : string) (az : AzureBlob) :
  key <> "prefix" -> Prefix (assign key value az) = Prefix az.
Proof.
  intros Hk. unfold assign.
  repeat case_match; try reflexivity; exfalso; apply Hk; by apply String.eqb_eq.
Qed.

Lemma assign_Client (key value : string) (az : AzureBlob) :
  Client (assign key value az) = Client az.
Proof. unfold assign. repeat case_match; reflexivity. Qed.

End unmarshal.

Section unmarshal_run.
Import caddyfile settings.
Context `{Tokens}.

Lemma Next_at (ts : list Token) (i : nat) :
  (i < length ts)%nat ->
  Next (MkDispenser ts (Z.of_nat i - 1)) = (true, MkDispenser ts (Z.of_nat i)).
Proof.
  intros Hi. unfold Next, len. cbn [tokens cursor].
  replace (Z.of_nat i - 1 <? Z.of_nat (length ts) - 1)%Z with true
    by (symmetry; apply Z.ltb_lt; lia).
  do 2 f_equal. lia.
Qed.

Lemma Val_at (ts : list Token) (i : nat) (t : Token) :
  ts !! i = Some t -> Val (MkDispenser ts (Z.of_nat i)) = Text t.
Proof.
  intros Ht. pose proof (lookup_lt_Some _ _ _ Ht) as Hi.
  unfold Val, len. cbn [tokens cursor].
  replace (Z.of_nat i <? 0)%Z with false by (symmetry; apply Z.ltb_ge; lia).
  replace (Z.of_nat (length ts) <=? Z.of_nat i)%Z with false
    by (symmetry; apply Z.leb_gt; lia).
  cbn [orb]. rewrite Nat2Z.id, Ht. reflexivity.
Qed.

(** [Args] on a token that has a next one: the next token is taken when
    it is on the same line and opens no block. *)
Lemma Args_at (ts : list Token) (i : nat) (k v : Token) (value : string) :
  ts !! i = Some k -> ts !! S i = Some v ->
  Args value (MkDispenser ts (Z.of_nat i))
  = if isNextOnNewLine k v || String.eqb (Text v) "{"
    then (false, value, MkDispenser ts (Z.of_nat i))
    else (true, Text v, MkDispenser ts (Z.of_nat (S i))).
Proof.
  intros Hk Hv. pose proof (lookup_lt_Some _ _ _ Hv) as Hi.
  unfold Args, NextArg, nextOnSameLine, len. cbn [tokens cursor].
  replace (Z.of_nat i <? 0)%Z with false by (symmetry; apply Z.ltb_ge; lia).
  replace (Z.of_nat (length ts) - 1 <=? Z.of_nat i)%Z with false
    by (symmetry; apply Z.leb_gt; lia).
  replace (Z.of_nat i + 1)%Z with (Z.of_nat (S i)) by lia.
  rewrite !Nat2Z.id, Hk, Hv.
  destruct (isNextOnNewLine k v); cbn [negb orb]; [reflexivity|].
  rewrite (Val_at ts (S i) v Hv).
  destruct (String.eqb (Text v) "{"); cbn [negb tokens cursor];
    [|by rewrite (Val_at ts (S i) v Hv)].
  do 2 f_equal. lia.
Qed.

(** [Args] on the last token finds no argument. *)
Lemma Args_last (ts : list Token) (i : nat) (value : string) :
  S i = length ts ->
  Args value (MkDispenser ts (Z.of_nat i))
  = (false, value, MkDispenser ts (Z.of_nat i)).
Proof.
  intros Hi. unfold Args, NextArg, nextOnSameLine, len. cbn [tokens cursor].
  replace (Z.of_nat i <? 0)%Z with false by (symmetry; apply Z.ltb_ge; lia).
  replace (Z.of_nat (length ts) - 1 <=? Z.of_nat i)%Z with true
    by (symmetry; apply Z.leb_le; lia).
  reflexivity.
Qed.

Lemma UnmarshalCaddyfile_loop_end (fuel : nat) (az : AzureBlob)
      (ts : list Token) (i : nat) :
  S i = length ts ->
  UnmarshalCaddyfile_loop fuel az (MkDispenser ts (Z.of_nat i))
  = (az, MkDispenser ts (Z.of_nat i)).
Proof.
  intros Hi. destruct fuel as [|fuel]; [reflexivity|].
  cbn [UnmarshalCaddyfile_loop]. unfold Next, len. cbn [tokens cursor].
  replace (Z.of_nat i <? Z.of_nat (length ts) - 1)%Z with false
    by (symmetry; apply Z.ltb_ge; lia).
  reflexivity.
Qed.

Lemma flat_length (pairs : list (Token * Token)) :
  length (flat pairs) = (2 * length pairs)%nat.
Proof.
  unfold flat. induction pairs as [|kv pairs IH]; [reflexivity|].
  cbn [flat_map app length]. rewrite IH. cbn. lia.
Qed.

(** A run of well-formed pairs costs one iteration each and makes the
    assignments in order. *)
Lemma UnmarshalCaddyfile_loop_pairs (pairs : list (Token * Token)) :
  forall (pre post : list Token) (az : AzureBlob) (fuel : nat),
    Forall well_formed pairs ->
    UnmarshalCaddyfile_loop (length pairs + fuel) az
      (MkDispenser (pre ++ flat pairs ++ post) (Z.of_nat (length pre) - 1))
    = UnmarshalCaddyfile_loop fuel (assign_all pairs az)
        (MkDispenser (pre ++ flat pairs ++ post)
                     (Z.of_nat (length pre + 2 * length pairs) - 1)).
Proof.
  induction pairs as [|[k v] pairs IH]; intros pre post az fuel Hwf.
  - cbn. rewrite Nat.add_0_r. reflexivity.
  - apply Forall_cons in Hwf as [[Hsame Hbrace] Hwf]. cbn [fst snd] in *.
    cbn [length Nat.add UnmarshalCaddyfile_loop].
    set (ts := pre ++ flat ((k, v) :: pairs) ++ post).
    assert (Hk : ts !! length pre = Some k)
      by (subst ts; apply list_lookup_middle; reflexivity).
    assert (Hv : ts !! S (length pre) = Some v).
    { subst ts. cbn [flat flat_map fst snd app].
      change (pre ++ k :: v :: ?r) with (pre ++ [k] ++ v :: r).
      rewrite app_assoc. apply list_lookup_middle.
      rewrite length_app. cbn. lia. }
    rewrite Next_at by (by eapply lookup_lt_Some).
    cbn [negb]. rewrite (Val_at ts _ k Hk), (Args_at ts _ k v "" Hk Hv).
    rewrite Hsame. apply String.eqb_neq in Hbrace. rewrite Hbrace.
    cbn [orb negb].
    subst ts. cbn [flat flat_map fst snd app].
    change (pre ++ k :: v :: ?r) with (pre ++ [k; v] ++ r).
    rewrite app_assoc.
    replace (Z.of_nat (S (length pre))) with (Z.of_nat (length (pre ++ [k; v])) - 1)%Z
      by (rewrite length_app; cbn; lia).
    fold (flat pairs).
    rewrite IH by exact Hwf.
    cbn [assign_all fold_left fst snd].
    do 3 f_equal. rewrite length_app. cbn. lia.
Qed.

End unmarshal_run.

Section unmarshal_block.
Import caddyfile settings.
Context `{Tokens}.

Lemma UnmarshalCaddyfile_loop_Client (fuel : nat) :
  forall (az : AzureBlob) (d : Dispenser),
    Client (UnmarshalCaddyfile_loop fuel az d).1 = Client az.
Proof.
  induction fuel as [|fuel IH]; intros az d; [reflexivity|].
  cbn [UnmarshalCaddyfile_loop].
  destruct (Next d) as [[|] d1]; cbn [negb fst]; [|reflexivity].
  destruct (Args "" d1) as [[[|] value] d2]; cbn [negb]; rewrite IH;
    [apply assign_Client | reflexivity].
Qed.

(** The loop on a block: the name and the opening are skipped, every
    pair is assigned, the closing is skipped. *)
Lemma UnmarshalCaddyfile_loop_block (az : AzureBlob) (hd open close : Token)
      (pairs : list (Token * Token)) (fuel : nat) :
  Text open = "{" ->
  isNextOnNewLine open (first_token pairs close) = true ->
  Forall well_formed pairs ->
  UnmarshalCaddyfile_loop (S (S (length pairs + S fuel))) az
    (NewDispenser (hd :: open :: flat pairs ++ [close]))
  = (assign_all pairs az,
     MkDispenser (hd :: open :: flat pairs ++ [close])
                 (Z.of_nat (2 + 2 * length pairs))).
Proof.
  intros Hopen Hline Hwf.
  set (ts := hd :: open :: flat pairs ++ [close]).
  assert (Hlen : length ts = (3 + 2 * length pairs)%nat).
  { subst ts. cbn [length]. rewrite length_app, flat_length. cbn. lia. }
  assert (H2 : ts !! 2%nat = Some (first_token pairs close))
    by (subst ts; destruct pairs as [|[k v] pairs]; reflexivity).
  unfold NewDispenser.
  (* the module name *)
  change (-1)%Z with (Z.of_nat 0 - 1)%Z.
  cbn [UnmarshalCaddyfile_loop].
  rewrite Next_at by lia. cbn [negb].
  rewrite (Args_at ts 0 hd open "" eq_refl eq_refl).
  rewrite Hopen, String.eqb_refl, orb_true_r. cbn [negb].
  (* the block opening *)
  change (Z.of_nat 0) with (Z.of_nat 1 - 1)%Z.
  rewrite Next_at by lia. cbn [negb].
  rewrite (Args_at ts 1 open _ "" eq_refl H2).
  rewrite Hline. cbn [orb negb].
  (* the settings *)
  change (Z.of_nat 1) with (Z.of_nat (length [hd; open]) - 1)%Z.
  change ts with ([hd; open] ++ flat pairs ++ [close]).
  rewrite UnmarshalCaddyfile_loop_pairs by exact Hwf.
  change ([hd; open] ++ flat pairs ++ [close]) with ts.
  (* the block closing *)
  cbn [UnmarshalCaddyfile_loop].
  rewrite Next_at by (cbn [length]; lia). cbn [negb].
  rewrite Args_last by (cbn [length]; lia). cbn [negb].
  rewrite UnmarshalCaddyfile_loop_end by (cbn [length]; lia).
  reflexivity.
Qed.

End unmarshal_block.

(** X19: [UnmarshalCaddyfile] returns nil and leaves the client alone,
    and a setting whose directive name is the text of no token keeps the
    value it had. *)
Theorem UnmarshalCaddyfile_untouched `{caddyfile.Tokens} (az : AzureBlob)
        (d : caddyfile.Dispenser) :
  (UnmarshalCaddyfile az d).2 = None
  /\ Client (UnmarshalCaddyfile az d).1.1 = Client az
  /\ ((forall t, t ∈ caddyfile.tokens d -> caddyfile.Text t <> "account_name") ->
      AccountName (UnmarshalCaddyfile az d).1.1 = AccountName az)
  /\ ((forall t, t ∈ caddyfile.tokens d -> caddyfile.Text t <> "account_key") ->
      AccountKey (UnmarshalCaddyfile az d).1.1 = AccountKey az)
  /\ ((forall t, t ∈ caddyfile.tokens d -> caddyfile.Text t <> "container") ->
      Container (UnmarshalCaddyfile az d).1.1 = Container az)
  /\ ((forall t, t ∈ caddyfile.tokens d -> caddyfile.Text t <> "prefix") ->
      Prefix (UnmarshalCaddyfile az d).1.1 = Prefix az).
Proof.
  unfold UnmarshalCaddyfile. cbn [fst snd].
  split; [reflexivity|]. split; [apply UnmarshalCaddyfile_loop_Client|].
  split_and!; intros Hno.
  - by apply (UnmarshalCaddyfile_loop_keeps _ AccountName "account_name"
                assign_AccountName).
  - by apply (UnmarshalCaddyfile_loop_keeps _ AccountKey "account_key"
                assign_AccountKey).
  - by apply (UnmarshalCaddyfile_loop_keeps _ Container "container"
                assign_Container).
  - by apply (UnmarshalCaddyfile_loop_keeps _ Prefix "prefix" assign_Prefix).
Qed.

(** X20: on a block [name { ... }] in which the token after the opening
    starts a new line and every directive is followed on its line by an
    argument that opens no block, [UnmarshalCaddyfile] makes exactly the
    assignments of the block, first to last (for a repeated directive the
    last one stands). *)
Theorem UnmarshalCaddyfile_block `{caddyfile.Tokens} (az : AzureBlob)
        (hd open close : caddyfile.Token)
        (pairs : list (caddyfile.Token * caddyfile.Token)) :
  caddyfile.Text open = "{" ->
  caddyfile.isNextOnNewLine open (settings.first_token pairs close) = true ->
  Forall settings.well_formed pairs ->
  (UnmarshalCaddyfile az
     (caddyfile.NewDispenser (hd :: open :: settings.flat pairs ++ [close]))).1.1
  = settings.assign_all pairs az.
Proof.
  intros Hopen Hline Hwf. unfold UnmarshalCaddyfile. cbn [fst].
  replace (Z.to_nat _) with (S (S (length pairs + S (S (length pairs))))).
  - by rewrite UnmarshalCaddyfile_loop_block.
  - unfold caddyfile.len, caddyfile.NewDispenser. cbn [caddyfile.tokens
      caddyfile.cursor length].
    rewrite length_app, flat_length. cbn [length]. lia.
Qed.

Lemma UnmarshalCaddyfile_block_witness :
  (@UnmarshalCaddyfile sample.line_tokens sample.unconfigured
     (@caddyfile.NewDispenser sample.line_tokens
        (("azure_blob", 1%nat) :: ("{", 1%nat)
         :: @settings.flat sample.line_tokens sample.block_settings
         ++ [("}", 6%nat)]))).1.1
  = sample.az.
Proof.
  refine (eq_trans
            (@UnmarshalCaddyfile_block sample.line_tokens sample.unconfigured
               ("azure_blob", 1%nat) ("{", 1%nat) ("}", 6%nat)
               sample.block_settings _ _ _) _).
  - reflexivity.
  - reflexivity.
  - repeat constructor; discriminate.
  - reflexivity.
Defined.

Lemma Store_then_Load_no_prefix_witness :
  (Exists sample.az_plain sample.key sample.bare).1 = true
  /\ (Load sample.az_plain sample.key sample.bare).1 = (sample.payload, None).
Proof.
  apply (Store_then_Load_no_prefix sample.az_plain sample.key sample.payload
           sample.empty sample.bare); reflexivity.
Defined.

(* ===================================================================== *)
(** ** Errors of Load and Delete *)
(* ===================================================================== *)

(** X22: the error of [Load] is [fs.ErrNotExist] exactly when the probe
    by [Exists] answered [false]; every other failure of [Load] carries an
    error of the SDK. *)
Theorem Load_error_kinds (az : AzureBlob) (key : string) (w : World)
        (e : error) :
  (Load az key w).1.2 = Some e ->
  (e = ErrNotExist /\ (Exists az key w).1 = false)
  \/ ((exists code : string, e = ResponseError code)
      /\ (Exists az key w).1 = true).
Proof.
  unfold Load, bind. destruct (Exists az key w) as [found w1]. cbn [fst].
  destruct found; cbn [negb].
  - intros He. right. split; [|reflexivity]. revert He.
    unfold DownloadStream, ReadAll, call, bind, next_fault, ret.
    destruct (pending_fault w1); cbn; [intros [= <-]; by eexists|].
    destruct (blobs w1 !! _); cbn; [|intros [= <-]; by eexists].
    destruct (pending_fault _); cbn; [intros [= <-]; by eexists|discriminate].
  - intros [= <-]. by left.
Qed.

Lemma Load_error_kinds_witness :
  (ErrNotExist = ErrNotExist
   /\ (Exists sample.az sample.key sample.stored).1 = false)
  \/ ((exists code : string, ErrNotExist = ResponseError code)
      /\ (Exists sample.az sample.key sample.stored).1 = true).
Proof.
  apply (Load_error_kinds sample.az sample.key sample.stored ErrNotExist).
  reflexivity.
Defined.

(** X23: [Delete] is not idempotent: after a [Delete] that succeeded, a
    second [Delete] of the same key returns an error and changes
    nothing. *)
Theorem Delete_twice (az : AzureBlob) (key : string) (w w1 : World) :
  Delete az key w = (None, w1) ->
  (exists e : error, (Delete az key w1).1 = Some e)
  /\ blobs (Delete az key w1).2 = blobs w1.
Proof.
  rewrite Delete_run.
  destruct (pending_fault w) as [code|]; [discriminate|].
  destruct (blobs w !! (Container az, KeyPrefix az key)) as [b|]; [|discriminate].
  intros [= <-]. rewrite Delete_run.
  destruct (pending_fault _) as [code|]; cbn; [split; [by eexists|reflexivity]|].
  rewrite lookup_delete_eq. split; [by eexists | reflexivity].
Qed.

Lemma Delete_twice_witness :
  (exists e : error, (Delete sample.az sample.key sample.empty).1 = Some e)
  /\ blobs (Delete sample.az sample.key sample.empty).2 = blobs sample.empty.
Proof.
  apply (Delete_twice sample.az sample.key sample.stored sample.empty).
  vm_compute. reflexivity.
Defined.

(** X24: after a successful [Delete], [Load] of the same key fails,
    whatever the SDK calls do. *)
Theorem Delete_then_Load (az : AzureBlob) (key : string) (w w1 : World) :
  Delete az key w = (None, w1) ->
  exists e : error, (Load az key w1).1.2 = Some e.
Proof.
  rewrite Delete_run.
  destruct (pending_fault w) as [code|]; [discriminate|].
  destruct (blobs w !! (Container az, KeyPrefix az key)) as [b|]; [|discriminate].
  intros [= <-].
  unfold Load, bind.
  pose proof (Exists_blobs az key
                (MkWorld (delete (Container az, KeyPrefix az key) (blobs w))
                         (now w) (tail (faults w)) (arrived w))) as HB.
  destruct (Exists az key _) as [found w2]. cbn [snd blobs] in HB.
  destruct found; cbn [negb]; [|by eexists].
  unfold DownloadStream, call, bind, next_fault, ret.
  destruct (pending_fault w2); cbn; [by eexists|].
  rewrite HB, lookup_delete_eq. by eexists.
Qed.

Lemma Delete_then_Load_witness :
  exists e : error, (Load sample.az sample.key sample.empty).1.2 = Some e.
Proof.
  apply (Delete_then_Load sample.az sample.key sample.stored sample.empty).
  vm_compute. reflexivity.
Defined.

(** X25: [UnmarshalCaddyfile] reads the dispenser to its end: when it
    returns, no token is left for [Next]. *)
Theorem UnmarshalCaddyfile_exhausts `{caddyfile.Tokens} (az : AzureBlob)
        (d : caddyfile.Dispenser) :
  (caddyfile.Next (UnmarshalCaddyfile az d).1.2).1 = false.
Proof.
  unfold UnmarshalCaddyfile. cbn [fst snd].
  assert (G : forall fuel az d,
             (caddyfile.len d - 1 - caddyfile.cursor d < Z.of_nat fuel)%Z
             \/ (caddyfile.len d - 1 <= caddyfile.cursor d)%Z ->
             (caddyfile.Next (UnmarshalCaddyfile_loop fuel az d).2).1 = false).
  { clear az d. induction fuel as [|fuel IH]; intros az d Hfuel.
    - cbn. destruct (Next_cursor d) as [(_ & _ & Hlt)|(Hf & _)]; [lia|exact Hf].
    - cbn [UnmarshalCaddyfile_loop].
      pose proof (Next_tokens d) as Ht.
      destruct (Next_cursor d) as [(Hm & Hc & Hlt)|(Hf & Hd & Hge)].
      + destruct (caddyfile.Next d) as [more d1]. cbn [fst snd] in *. subst.
        cbn [negb].
        destruct (Args_spec "" d1) as [Ht2 Hc2].
        destruct (caddyfile.Args "" d1) as [[ok value] d2].
        cbn [fst snd] in Ht2, Hc2.
        assert (Hlen : caddyfile.len d2 = caddyfile.len d)
          by (unfold caddyfile.len; rewrite Ht2, Ht; reflexivity).
        destruct ok; cbn [negb]; apply IH; lia.
      + destruct (caddyfile.Next d) as [more d1] eqn:HN. cbn [fst snd] in *.
        subst. cbn [negb snd]. rewrite HN. reflexivity. }
  apply G.
  destruct (Z.le_gt_cases (caddyfile.len d - 1) (caddyfile.cursor d));
    [by right | left; lia].
Qed.

(** X26: when the probe and the download go through and the body breaks
    while it is read, [Load] returns the bytes that arrived before the
    break, a prefix of the stored payload, together with the error of the
    read. *)
Theorem Load_broken_body (az : AzureBlob) (key : string) (b : Blob)
        (code : string) (w : World) :
  is_Some (blobs w !! (Container az, key)) ->
  blobs w !! (Container az, KeyPrefix az key) = Some b ->
  faults w = [None; None; None; None; Some code] ->
  (Load az key w).1
  = (take (arrived w) (Body b), Some (ResponseError code)).
Proof.
  destruct w as [bl t fl n]. cbn [blobs faults arrived].
  intros [b0 Hb0] Hb ->.
  unfold Load, Exists, NewSharedKeyCredential,
    NewClientWithSharedKeyCredential, GetProperties, DownloadStream, ReadAll,
    call, bind, next_fault, ret, pending_fault, advance.
  cbn. rewrite Hb0. cbn. rewrite Hb. reflexivity.
Qed.

Lemma Load_broken_body_witness :
  (Load sample.az_plain sample.key sample.bare_breaking).1
  = (take 3 sample.payload, Some (ResponseError "ConnectionReset")).
Proof.
  apply (Load_broken_body sample.az_plain sample.key
           (MkBlob sample.payload 1000%Z) "ConnectionReset"
           sample.bare_breaking).
  - vm_compute. eexists. reflexivity.
  - vm_compute. reflexivity.
  - reflexivity.
Defined.
